(** * tempus-bede: the calendar resolution and normalization layer

    A shallow embedding of [src/utils/date.ts], [src/utils/calendar.ts] and
    the two route handlers, together with the ECMAScript built-ins they
    call, followed by the properties of the specification and of the code
    stated over that embedding.

    - [JS]         : the built-ins (Number to String, [padStart], [parseInt],
                     [split], the Date abstract operations of ECMA-262
                     21.4.1, property lookup on an object literal);
    - [DateTs]     : [formatDate], [parseDate], [isValidDate];
    - [CalendarTs] : the diocese registry, the calendar cache, the response
                     normalizer and the day resolver;
    - [RoutesTs]   : the handlers of [GET /date/:date] and [GET /today].

    Conventions.  A Number that the code handles is an integer ([Z]); NaN,
    where an operation can produce it, is [None].  A Date is a valid Date,
    given by its time value.  The host's time zone, the calendar engine and
    the Unicode-aware [String.prototype.toLowerCase] are parameters: the
    engine is a function of the year and the country, as the specification
    assumes, and it may throw; [toLowerCase] is any function on strings. *)

From Stdlib Require Import ZArith Lia String Ascii List Bool.
From stdpp Require Import base option list gmap strings.

Set Default Proof Using "Type".

(* ===================================================================== *)
(** * ECMAScript built-ins                                                *)
(* ===================================================================== *)

Module JS.
Local Open Scope Z_scope.

(** ** Strings *)

Definition is_digit (c : ascii) : bool :=
  (48 <=? Z.of_nat (nat_of_ascii c)) && (Z.of_nat (nat_of_ascii c) <=? 57).

Definition digit_value (c : ascii) : Z := Z.of_nat (nat_of_ascii c) - 48.

Definition digit_to_ascii (d : Z) : ascii := ascii_of_nat (Z.to_nat (48 + d)).

(** [Number::toString] on an integral Number: an optional minus sign and
    the decimal digits, most significant first, no padding. *)
Fixpoint digits_of (fuel : nat) (n : Z) (acc : string) : string :=
  match fuel with
  | O => acc
  | S fuel' =>
      let acc' := String (digit_to_ascii (n mod 10)) acc in
      if n <? 10 then acc' else digits_of fuel' (n / 10) acc'
  end.

Definition Number_toString (n : Z) : string :=
  if n <? 0
  then String "-" (digits_of (S (Z.to_nat (Z.log2 (- n)))) (- n) EmptyString)
  else digits_of (S (Z.to_nat (Z.log2 n))) n EmptyString.

Fixpoint String_repeat (c : ascii) (n : nat) : string :=
  match n with
  | O => EmptyString
  | S n' => String c (String_repeat c n')
  end.

(** [s.padStart(maxLength, fill)] for a one-character fill string. *)
Definition String_padStart (s : string) (maxLength : nat) (fill : ascii) : string :=
  (String_repeat fill (maxLength - String.length s) ++ s)%string.

(** [parseInt(s, 10)] on a string that starts with a digit: the value of
    the longest prefix of decimal digits.  The two call sites pass groups
    captured by [\d{4}] and [\d{2}], so the result is never NaN. *)
Fixpoint parseInt_from (s : string) (acc : Z) : Z :=
  match s with
  | EmptyString => acc
  | String c s' =>
      if is_digit c then parseInt_from s' (10 * acc + digit_value c) else acc
  end.

Definition parseInt10 (s : string) : Z := parseInt_from s 0.

(** [s.split(sep)[0]]: what precedes the first separator, the whole
    string when there is none.  [split] never returns an empty array, so
    the element is always defined. *)
Fixpoint String_split_head (sep : ascii) (s : string) : string :=
  match s with
  | EmptyString => EmptyString
  | String c s' =>
      if Ascii.eqb c sep then EmptyString else String c (String_split_head sep s')
  end.

(** [String.prototype.toLowerCase] (ECMA-262 22.1.3.28) converts the
    string by the case mappings of the Unicode Character Database.  It is
    not defined here: the code that calls it takes it as a parameter,
    [toLowerCase : string -> string], and what is proved of that code
    holds for every such function. *)

(** [a || b] on strings: the empty string is the only falsy string. *)
Definition or_string (a b : string) : string :=
  match a with
  | EmptyString => b
  | _ => a
  end.

(** [xs.join(sep)] on an array of strings. *)
Fixpoint Array_join (sep : string) (xs : list string) : string :=
  match xs with
  | [] => EmptyString
  | [x] => x
  | x :: rest => (x ++ sep ++ Array_join sep rest)%string
  end.

(** [q || d] where [q] is a string or [undefined] ([None]): [undefined] and
    the empty string are falsy. *)
Definition or_default (q : option string) (d : string) : string :=
  match q with
  | Some (String c s) => String c s
  | _ => d
  end.

(** ** Values that a property lookup on an ordinary object can produce *)

Inductive BuiltinObject : Type :=
  | ObjectConstructor
  | ObjectPrototype
  | PrototypeMethod (name : string).

Inductive Value : Type :=
  | Str (s : string)
  | Obj (o : BuiltinObject).

(** Every object is truthy; a string is truthy unless it is empty. *)
Definition ToBoolean (v : Value) : bool :=
  match v with
  | Str EmptyString => false
  | Str _ => true
  | Obj _ => true
  end.

(** [ToString], as used by a template literal. *)
Definition ToString (v : Value) : string :=
  match v with
  | Str s => s
  | Obj ObjectConstructor => "function Object() { [native code] }"
  | Obj ObjectPrototype => "[object Object]"
  | Obj (PrototypeMethod name) =>
      ("function " ++ name ++ "() { [native code] }")%string
  end.

(** The properties every ordinary object inherits from [Object.prototype]
    (ECMA-262 20.1.3 and B.2.2). *)
Definition ObjectPrototype_properties : list string :=
  [ "constructor"; "__proto__";
    "hasOwnProperty"; "isPrototypeOf"; "propertyIsEnumerable";
    "toLocaleString"; "toString"; "valueOf";
    "__defineGetter__"; "__defineSetter__";
    "__lookupGetter__"; "__lookupSetter__" ]%string.

Definition ObjectPrototype_Get (p : string) : option Value :=
  if existsb (String.eqb p) ObjectPrototype_properties then
    if String.eqb p "constructor" then Some (Obj ObjectConstructor)
    else if String.eqb p "__proto__" then Some (Obj ObjectPrototype)
    else Some (Obj (PrototypeMethod p))
  else None.

Fixpoint own_property (props : list (string * string)) (p : string) : option string :=
  match props with
  | [] => None
  | (k, v) :: rest => if String.eqb p k then Some v else own_property rest p
  end.

(** [o[p]] for an object literal [o] with the string-valued own properties
    [props]: the own property when there is one, otherwise the lookup
    continues in the prototype, which for a literal is [Object.prototype].
    [None] is [undefined]. *)
Definition Get (props : list (string * string)) (p : string) : option Value :=
  match own_property props p with
  | Some s => Some (Str s)
  | None => ObjectPrototype_Get p
  end.

(** ** Date abstract operations (ECMA-262 21.4.1) *)

Definition msPerDay : Z := 86400000.

Definition Day (t : Z) : Z := t / msPerDay.

Definition DaysInYear (y : Z) : Z :=
  if negb (y mod 4 =? 0) then 365
  else if negb (y mod 100 =? 0) then 366
  else if negb (y mod 400 =? 0) then 365
  else 366.

Definition DayFromYear (y : Z) : Z :=
  365 * (y - 1970) + (y - 1969) / 4 - (y - 1901) / 100 + (y - 1601) / 400.

Definition TimeFromYear (y : Z) : Z := msPerDay * DayFromYear y.

(** The standard defines [YearFromTime t] as the largest [y] with
    [TimeFromYear y <= t].  It is computed here from the mean length of a
    Gregorian year, 146097/400 days, and corrected by at most one year;
    [YearFromTime_largest] proves that this is the year of the standard. *)
Definition YearFromDay (d : Z) : Z :=
  let y := 1970 + (400 * d) / 146097 in
  if d <? DayFromYear y then y - 1
  else if DayFromYear (y + 1) <=? d then y + 1
  else y.

Definition YearFromTime (t : Z) : Z := YearFromDay (Day t).

Definition InLeapYear (t : Z) : Z :=
  if DaysInYear (YearFromTime t) =? 365 then 0 else 1.

Definition DayWithinYear (t : Z) : Z := Day t - DayFromYear (YearFromTime t).

Definition MonthFromTime (t : Z) : Z :=
  let d := DayWithinYear t in
  let leap := InLeapYear t in
  if d <? 31 then 0
  else if d <? 59 + leap then 1
  else if d <? 90 + leap then 2
  else if d <? 120 + leap then 3
  else if d <? 151 + leap then 4
  else if d <? 181 + leap then 5
  else if d <? 212 + leap then 6
  else if d <? 243 + leap then 7
  else if d <? 273 + leap then 8
  else if d <? 304 + leap then 9
  else if d <? 334 + leap then 10
  else 11.

Definition DateFromTime (t : Z) : Z :=
  let d := DayWithinYear t in
  let leap := InLeapYear t in
  match MonthFromTime t with
  | 0 => d + 1
  | 1 => d - 30
  | 2 => d - 58 - leap
  | 3 => d - 89 - leap
  | 4 => d - 119 - leap
  | 5 => d - 150 - leap
  | 6 => d - 180 - leap
  | 7 => d - 211 - leap
  | 8 => d - 242 - leap
  | 9 => d - 272 - leap
  | 10 => d - 303 - leap
  | _ => d - 333 - leap
  end.

(** Number of days of the year [ym] that precede its month [mn] (0..11). *)
Definition DaysBeforeMonth (ym mn : Z) : Z :=
  let leap := if DaysInYear ym =? 365 then 0 else 1 in
  match mn with
  | 0 => 0
  | 1 => 31
  | 2 => 59 + leap
  | 3 => 90 + leap
  | 4 => 120 + leap
  | 5 => 151 + leap
  | 6 => 181 + leap
  | 7 => 212 + leap
  | 8 => 243 + leap
  | 9 => 273 + leap
  | 10 => 304 + leap
  | _ => 334 + leap
  end.

(** [MakeDay]: the standard asks for the day number of a time value [t] with
    [YearFromTime t = ym], [MonthFromTime t = mn] and [DateFromTime t = 1],
    plus [date - 1]; [MakeDay_first_of_month] and [MakeDay_date] prove
    that the day computed here is that day. *)
Definition MakeDay (year month date : Z) : Z :=
  let ym := year + month / 12 in
  let mn := month mod 12 in
  DayFromYear ym + DaysBeforeMonth ym mn + date - 1.

Definition MakeTime (hour min sec ms : Z) : Z :=
  hour * 3600000 + min * 60000 + sec * 1000 + ms.

Definition MakeDate (day time : Z) : Z := day * msPerDay + time.

(** Years 0 to 99 are taken as 1900 to 1999. *)
Definition MakeFullYear (y : Z) : Z :=
  if (0 <=? y) && (y <=? 99) then 1900 + y else y.

(** [None] is NaN. *)
Definition TimeClip (time : Z) : option Z :=
  if Z.abs time >? 8640000000000000 then None else Some time.

(** [Date.UTC(year, month, date)]. *)
Definition Date_UTC (year month date : Z) : option Z :=
  TimeClip (MakeDate (MakeDay (MakeFullYear year) month date) (MakeTime 0 0 0 0)).

(** A (valid) Date object is its time value, milliseconds since the epoch,
    UTC. *)
Definition Date : Type := Z.

Definition getUTCFullYear (d : Date) : Z := YearFromTime d.
Definition getUTCMonth (d : Date) : Z := MonthFromTime d.
Definition getUTCDate (d : Date) : Z := DateFromTime d.

Section LocalTime.
(** The host's local time zone adjustment at UTC time [t], in
    milliseconds: [LocalTZA(t, true)] of the standard. *)
Variable LocalTZA : Z -> Z.

Definition LocalTime (t : Z) : Z := t + LocalTZA t.

Definition getFullYear (d : Date) : Z := YearFromTime (LocalTime d).
Definition getMonth (d : Date) : Z := MonthFromTime (LocalTime d).
Definition getDate (d : Date) : Z := DateFromTime (LocalTime d).
End LocalTime.

End JS.

(* ===================================================================== *)
(** * src/utils/date.ts                                                   *)
(* ===================================================================== *)

Module DateTs.
Local Open Scope Z_scope.
Local Open Scope string_scope.

Section Host.
Variable LocalTZA : Z -> Z.

Definition formatDate (date : JS.Date) : string :=
  let year := JS.getFullYear LocalTZA date in
  let month :=
    JS.String_padStart (JS.Number_toString (JS.getMonth LocalTZA date + 1)) 2 "0" in
  let day :=
    JS.String_padStart (JS.Number_toString (JS.getDate LocalTZA date)) 2 "0" in
  JS.Number_toString year ++ "-" ++ month ++ "-" ++ day.
End Host.

(** [dateString.match(/^(\d{4})-(\d{2})-(\d{2})$/)]: the three captured
    groups, or [None] when the string does not match.  Without the [m] flag
    [$] matches at the very end of the input only, and [\d] is [0-9]. *)
Definition dateRegex_match (s : string) : option (string * string * string) :=
  match s with
  | String y1 (String y2 (String y3 (String y4 (String sep1
      (String m1 (String m2 (String sep2
         (String d1 (String d2 EmptyString))))))))) =>
      if forallb JS.is_digit [y1; y2; y3; y4; m1; m2; d1; d2]
         && Ascii.eqb sep1 "-" && Ascii.eqb sep2 "-"
      then Some (String y1 (String y2 (String y3 (String y4 EmptyString))),
                 String m1 (String m2 EmptyString),
                 String d1 (String d2 EmptyString))
      else None
  | _ => None
  end.

Definition parseDate (dateString : string) : option JS.Date :=
  match dateRegex_match dateString with
  | None => None
  | Some (yearStr, monthStr, dayStr) =>
      let year := JS.parseInt10 yearStr in
      let month := JS.parseInt10 monthStr in
      let day := JS.parseInt10 dayStr in
      match JS.Date_UTC year (month - 1) day with
      | None =>
          (* Invalid Date: each getter is NaN and NaN !== year *)
          None
      | Some date =>
          if negb (JS.getUTCFullYear date =? year)%Z
             || negb (JS.getUTCMonth date =? month - 1)%Z
             || negb (JS.getUTCDate date =? day)%Z
          then None
          else Some date
      end
  end.

Definition isValidDate (dateString : string) : bool :=
  match parseDate dateString with
  | None => false
  | Some _ => true
  end.

Section Clock.
Variable LocalTZA : Z -> Z.

(** [getTodayString] and [getCurrentYear], with the value of [new Date()]
    as [now]. *)
Definition getTodayString (now : JS.Date) : string := formatDate LocalTZA now.

Definition getCurrentYear (now : JS.Date) : Z := JS.getFullYear LocalTZA now.
End Clock.

End DateTs.

(* ===================================================================== *)
(** * src/types and src/utils/calendar.ts                                 *)
(* ===================================================================== *)

Module CalendarTs.
Local Open Scope string_scope.

(** ** The engine's day record ([RomcalDay]) and the public response *)

Module KeyValue.
Record t : Type := mk { key : string; value : string }.
End KeyValue.

(** [liturgicalColor] is one key/value object or an array of them. *)
Inductive LiturgicalColor : Type :=
  | ColorSingle (c : KeyValue.t)
  | ColorArray (cs : list KeyValue.t).

Module Meta.
Record t : Type := mk {
  titles : option (list string);
  liturgicalColor : option LiturgicalColor }.
End Meta.

Module Data.
Record t : Type := mk {
  season : option KeyValue.t;
  meta : option Meta.t;
  prioritized : option bool }.
End Data.

(** [moment] is an ISO string or a Moment object, of which the code calls
    [format] only. *)
Inductive Moment : Type :=
  | MomentString (s : string)
  | MomentObject (format : string -> string) (valueOf : Z).

Module RomcalDay.
Record t : Type := mk {
  moment : Moment;
  type : string;
  name : string;
  key : string;
  source : string;
  data : Data.t }.
End RomcalDay.

Module LiturgicalDayResponse.
Record t : Type := mk {
  date : string;
  id : string;
  name : string;
  rank : string;
  season : string;
  color : list string;
  isFeast : bool;
  isSolemnity : bool;
  isOptional : bool }.
End LiturgicalDayResponse.

(** ** Diocese registry *)

Definition DIOCESE_TO_COUNTRY : list (string * string) :=
  [ ("united-states", "unitedStates");
    ("england", "england");
    ("italy", "italy");
    ("france", "france");
    ("spain", "spain");
    ("germany", "germany") ].

Definition SUPPORTED_DIOCESES : list string :=
  [ "united-states"; "england"; "italy"; "france"; "spain"; "germany" ].

Definition DEFAULT_DIOCESE : string := "united-states".

(** [SUPPORTED_DIOCESES.includes(diocese)] *)
Definition isValidDiocese (diocese : string) : bool :=
  existsb (String.eqb diocese) SUPPORTED_DIOCESES.

(** [DIOCESE_TO_COUNTRY[diocese] || diocese] *)
Definition dioceseToCountry (diocese : string) : JS.Value :=
  match JS.Get DIOCESE_TO_COUNTRY diocese with
  | Some v => if JS.ToBoolean v then v else JS.Str diocese
  | None => JS.Str diocese
  end.

(** ** Module state and the monad of the stateful functions *)

(** [calendarCache] is the module-level Map of Maps.  [engineCalls] records
    the arguments of every call of the engine, in order, and [console] what
    [console.error] printed. *)
Record State : Type := mkState {
  calendarCache : gmap string (gmap string RomcalDay.t);
  engineCalls : list (Z * JS.Value);
  console : list string }.

Definition initial : State := mkState ∅ [] [].

(** How an evaluation ends: with a value, or with a thrown error. *)
Inductive Completion (A : Type) : Type :=
  | Normal (a : A)
  | Throw (error : string).
Arguments Normal {A} a.
Arguments Throw {A} error.

Definition M (A : Type) : Type := State -> Completion A * State.

Definition ret {A} (a : A) : M A := fun st => (Normal a, st).

Definition bind {A B} (m : M A) (k : A -> M B) : M B :=
  fun st =>
    match m st with
    | (Normal a, st') => k a st'
    | (Throw e, st') => (Throw e, st')
    end.

(** [try { body } catch (error) { handler }] *)
Definition try_catch {A} (body : M A) (handler : string -> M A) : M A :=
  fun st =>
    match body st with
    | (Normal a, st') => (Normal a, st')
    | (Throw e, st') => handler e st'
    end.

Notation "x <- m ;; k" := (bind m (fun x => k))
  (at level 100, m at next level, right associativity).

Definition cache_lookup (cacheKey : string) : M (option (gmap string RomcalDay.t)) :=
  fun st => (Normal (calendarCache st !! cacheKey), st).

Definition cache_set (cacheKey : string) (dateMap : gmap string RomcalDay.t) : M unit :=
  fun st =>
    (Normal tt,
     mkState (<[cacheKey := dateMap]> (calendarCache st)) (engineCalls st) (console st)).

Definition console_error (message : string) : M unit :=
  fun st =>
    (Normal tt, mkState (calendarCache st) (engineCalls st) (console st ++ [message])).

(** [moment.split('T')[0] ?? ''] for a string, [moment.format('YYYY-MM-DD')]
    for a Moment object; the expression occurs in [getCalendar] and in
    [toLiturgicalDayResponse]. *)
Definition momentDateStr (m : Moment) : string :=
  match m with
  | MomentString s => JS.String_split_head "T" s
  | MomentObject format _ => format "YYYY-MM-DD"
  end.

(** The loop of [getCalendar] that turns the engine's array into a Map. *)
Definition buildDateMap (calendar : list RomcalDay.t) : gmap string RomcalDay.t :=
  foldl
    (fun (dateMap : gmap string RomcalDay.t) day =>
       let dateStr := momentDateStr (RomcalDay.moment day) in
       match dateStr with
       | EmptyString => dateMap
       | _ => <[dateStr := day]> dateMap
       end)
    ∅ calendar.

Section Normalizer.
(** The host's [String.prototype.toLowerCase]. *)
Variable toLowerCase : string -> string.

Definition toLiturgicalDayResponse (day : RomcalDay.t) : LiturgicalDayResponse.t :=
  let dateStr := momentDateStr (RomcalDay.moment day) in
  let colors :=
    match Data.meta (RomcalDay.data day) ≫= Meta.liturgicalColor with
    | Some (ColorArray colorData) =>
        map (fun c => toLowerCase (KeyValue.key c)) colorData
    | Some (ColorSingle colorData) =>
        [toLowerCase (KeyValue.key colorData)]
    | None => []
    end in
  let type := JS.or_string (RomcalDay.type day) "" in
  let isSolemnity := String.eqb type "SOLEMNITY" in
  let isFeast := String.eqb type "FEAST" in
  let isOptional := String.eqb type "OPT_MEMORIAL" in
  LiturgicalDayResponse.mk
    dateStr
    (JS.or_string (RomcalDay.key day) "")
    (JS.or_string (RomcalDay.name day) "")
    type
    (JS.or_string
       (from_option KeyValue.key "" (Data.season (RomcalDay.data day))) "")
    colors
    isFeast
    isSolemnity
    isOptional.
End Normalizer.

Section Resolver.
(** The host's time zone, the external calendar engine and the host's
    [String.prototype.toLowerCase].  Called with a year and a country,
    [calendarFor] returns the year's records or throws.  The country is
    what [dioceseToCountry] returns, a string for every supported
    diocese. *)
Variable LocalTZA : Z -> Z.
Variable calendarFor : Z -> JS.Value -> Completion (list RomcalDay.t).
Variable toLowerCase : string -> string.

Definition call_calendarFor (year : Z) (country : JS.Value) : M (list RomcalDay.t) :=
  fun st =>
    (calendarFor year country,
     mkState (calendarCache st) (engineCalls st ++ [(year, country)]) (console st)).

(** [`${year}-${country}`] *)
Definition cacheKey (year : Z) (country : JS.Value) : string :=
  JS.Number_toString year ++ "-" ++ JS.ToString country.

Definition getCalendar (year : Z) (country : JS.Value) : M (gmap string RomcalDay.t) :=
  cached <- cache_lookup (cacheKey year country) ;;
  match cached with
  | Some dateMap => ret dateMap
  | None =>
      calendar <- call_calendarFor year country ;;
      let dateMap := buildDateMap calendar in
      _ <- cache_set (cacheKey year country) dateMap ;;
      ret dateMap
  end.

(** The promise of the [async] function is fulfilled with the [Normal]
    value and rejected with the [Throw]n one.  [diocese = None] is a call
    that leaves the parameter out. *)
Definition getLiturgicalDay (date : JS.Date) (diocese : option string)
  : M (option LiturgicalDayResponse.t) :=
  let diocese := default DEFAULT_DIOCESE diocese in
  if negb (isValidDiocese diocese) then ret None
  else
    let year := JS.getFullYear LocalTZA date in
    let country := dioceseToCountry diocese in
    let dateStr := DateTs.formatDate LocalTZA date in
    try_catch
      (calendar <- getCalendar year country ;;
       match calendar !! dateStr with
       | None => ret None
       | Some day => ret (Some (toLiturgicalDayResponse toLowerCase day))
       end)
      (fun error =>
         _ <- console_error
                ("Error getting liturgical day for " ++ dateStr ++ " in "
                   ++ diocese ++ ": " ++ error) ;;
         ret None).

(** [getToday], with the value of [new Date()] as [now]. *)
Definition getToday (now : JS.Date) (diocese : option string)
  : M (option LiturgicalDayResponse.t) :=
  getLiturgicalDay now diocese.

Definition clearCalendarCache : M unit :=
  fun st => (Normal tt, mkState ∅ (engineCalls st) (console st)).

(** What the module's functions can do to its state.  [getCalendar] is
    the only function that writes to the cache.  [getCalendarForYear], not
    modelled further, touches the state by one call of [getCalendar] and,
    in its [catch] block, by [console.error]. *)
Inductive step : State -> State -> Prop :=
  | step_getLiturgicalDay date diocese st :
      step st (snd (getLiturgicalDay date diocese st))
  | step_getCalendar year country st :
      step st (snd (getCalendar year country st))
  | step_console_error message st :
      step st (snd (console_error message st))
  | step_clearCalendarCache st :
      step st (snd (clearCalendarCache st)).

Definition reachable (st : State) : Prop := rtc step initial st.
End Resolver.

End CalendarTs.

(* ===================================================================== *)
(** * src/routes/date.ts and src/routes/today.ts                          *)
(* ===================================================================== *)

Module RoutesTs.
Import CalendarTs.
Local Open Scope string_scope.

Module ErrorResponse.
Record t : Type := mk { error : string; message : string; status : Z }.
End ErrorResponse.

(** What a handler passes to [c.json]: an [ErrorResponse] or a
    [LiturgicalDayResponse]. *)
Inductive JsonBody : Type :=
  | ErrorJson (e : ErrorResponse.t)
  | DayJson (d : LiturgicalDayResponse.t).

(** The response [c.json(body, status)] builds; the status is 200 when the
    call leaves it out. *)
Record HttpResponse : Type := mkHttpResponse {
  httpStatus : Z;
  jsonBody : JsonBody }.

Definition c_json (body : JsonBody) (status : Z) : HttpResponse :=
  mkHttpResponse status body.

(** [dioceseParam && !isValidDiocese(dioceseParam)] *)
Definition rejectsDiocese (dioceseParam : option string) : bool :=
  match dioceseParam with
  | Some (String c s) => negb (isValidDiocese (String c s))
  | _ => false
  end.

Definition invalidDioceseResponse (dioceseParam : string) : HttpResponse :=
  c_json
    (ErrorJson
       (ErrorResponse.mk "INVALID_DIOCESE"
          ("Invalid diocese '" ++ dioceseParam ++ "'. Supported dioceses: "
             ++ JS.Array_join ", " SUPPORTED_DIOCESES)
          400))
    400.

Section Handlers.
Variable LocalTZA : Z -> Z.
Variable calendarFor : Z -> JS.Value -> Completion (list RomcalDay.t).
Variable toLowerCase : string -> string.

(** The handler of [GET /date/:date]: [dateParam] is [c.req.param('date')]
    and [dioceseParam] is [c.req.query('diocese')], [None] when the query
    has no such parameter. *)
Definition dateRoute (dateParam : string) (dioceseParam : option string)
  : M HttpResponse :=
  if negb (DateTs.isValidDate dateParam) then
    ret (c_json
           (ErrorJson
              (ErrorResponse.mk "INVALID_DATE"
                 ("Invalid date format '" ++ dateParam
                    ++ "'. Expected YYYY-MM-DD format.")
                 400))
           400)
  else
    let diocese := JS.or_default dioceseParam DEFAULT_DIOCESE in
    if rejectsDiocese dioceseParam then
      ret (invalidDioceseResponse (default "" dioceseParam))
    else
      match DateTs.parseDate dateParam with
      | None =>
          ret (c_json
                 (ErrorJson
                    (ErrorResponse.mk "INVALID_DATE"
                       ("Invalid date '" ++ dateParam ++ "'.") 400))
                 400)
      | Some date =>
          try_catch
            (liturgicalDay <- getLiturgicalDay LocalTZA calendarFor toLowerCase date (Some diocese) ;;
             match liturgicalDay with
             | None =>
                 ret (c_json
                        (ErrorJson
                           (ErrorResponse.mk "NOT_FOUND"
                              ("No liturgical data found for date '"
                                 ++ dateParam ++ "'")
                              404))
                        404)
             | Some day => ret (c_json (DayJson day) 200)
             end)
            (fun error =>
               ret (c_json
                      (ErrorJson
                         (ErrorResponse.mk "INTERNAL_ERROR"
                            "An error occurred while retrieving liturgical data"
                            500))
                      500))
      end.

(** The handler of [GET /today], with the value of [new Date()] in
    [getToday] as [now]. *)
Definition todayRoute (now : JS.Date) (dioceseParam : option string)
  : M HttpResponse :=
  let diocese := JS.or_default dioceseParam DEFAULT_DIOCESE in
  if rejectsDiocese dioceseParam then
    ret (invalidDioceseResponse (default "" dioceseParam))
  else
    try_catch
      (liturgicalDay <- getToday LocalTZA calendarFor toLowerCase now (Some diocese) ;;
       match liturgicalDay with
       | None =>
           ret (c_json
                  (ErrorJson
                     (ErrorResponse.mk "NOT_FOUND"
                        "No liturgical data found for today" 404))
                  404)
       | Some day => ret (c_json (DayJson day) 200)
       end)
      (fun error =>
         ret (c_json
                (ErrorJson
                   (ErrorResponse.mk "INTERNAL_ERROR"
                      "An error occurred while retrieving liturgical data"
                      500))
                500)).
End Handlers.

End RoutesTs.

(* ===================================================================== *)
(** * Vocabulary of the specification                                     *)
(* ===================================================================== *)

Import CalendarTs.

(** The dates of the Gregorian calendar, by the usual table of month
    lengths; this is the notion of a real date that the specification
    appeals to, stated without reference to [Date]. *)
Module Gregorian.
Local Open Scope Z_scope.
Definition leapYear (y : Z) : bool :=
  ((y mod 4 =? 0) && negb (y mod 100 =? 0)) || (y mod 400 =? 0).

Definition daysInMonth (y m : Z) : Z :=
  match m with
  | 1 | 3 | 5 | 7 | 8 | 10 | 12 => 31
  | 4 | 6 | 9 | 11 => 30
  | 2 => if leapYear y then 29 else 28
  | _ => 0
  end.

Definition valid (y m d : Z) : Prop :=
  1 <= m <= 12 /\ 1 <= d <= daysInMonth y m.
End Gregorian.

(** The raw color field of a record: [day.data?.meta?.liturgicalColor]. *)
Definition rawColor (day : RomcalDay.t) : option LiturgicalColor :=
  Data.meta (RomcalDay.data day) ≫= Meta.liturgicalColor.

(** The date string under which [getCalendar] files a record. *)
Definition dateStrOf (day : RomcalDay.t) : string :=
  momentDateStr (RomcalDay.moment day).

(** One iteration of the loop of [getCalendar]. *)
Definition addDay (dateMap : gmap string RomcalDay.t) (day : RomcalDay.t)
  : gmap string RomcalDay.t :=
  match dateStrOf day with
  | EmptyString => dateMap
  | _ => <[dateStrOf day := day]> dateMap
  end.

(** Every entry of the cache is the mapping built from the whole list that
    the engine returns for the entry's year and country. *)
Definition entries_built
    (calendarFor : Z -> JS.Value -> Completion (list RomcalDay.t))
    (st : State) : Prop :=
  forall key dateMap,
    calendarCache st !! key = Some dateMap ->
    exists year country calendar,
      key = cacheKey year country
      /\ calendarFor year country = Normal calendar
      /\ dateMap = buildDateMap calendar.

(** The invariant as the specification words it: an entry has a binding
    for every record of the engine's list. *)
Definition entries_bind_every_record
    (calendarFor : Z -> JS.Value -> Completion (list RomcalDay.t))
    (st : State) : Prop :=
  forall key dateMap,
    calendarCache st !! key = Some dateMap ->
    exists year country calendar,
      key = cacheKey year country
      /\ calendarFor year country = Normal calendar
      /\ forall day, day ∈ calendar -> is_Some (dateMap !! dateStrOf day).

(** An engine whose list for every year holds one record with an empty date
    marker. *)
Definition undatedDay : RomcalDay.t :=
  RomcalDay.mk (MomentString "") "FERIA" "" "" "" (Data.mk None None None).

Definition undatedEngine : Z -> JS.Value -> Completion (list RomcalDay.t) :=
  fun _ _ => Normal [undatedDay].

(** The message that the [catch] block of [getLiturgicalDay] prints. *)
Definition resolverMessage (dateStr diocese error : string) : string :=
  "Error getting liturgical day for " ++ dateStr ++ " in " ++ diocese ++ ": "
    ++ error.

(** An engine that fails on every call, and one that returns two records
    for every year. *)
Definition failingEngine : Z -> JS.Value -> Completion (list RomcalDay.t) :=
  fun _ _ => Throw "engine failure".

Definition christmas : RomcalDay.t :=
  RomcalDay.mk (MomentString "2026-12-25T00:00:00.000Z") "SOLEMNITY"
    "Christmas" "christmas" "u"
    (Data.mk (Some (KeyValue.mk "CHRISTMASTIDE" "Christmastide"))
       (Some (Meta.mk None (Some (ColorSingle (KeyValue.mk "WHITE" "White")))))
       None).

Definition stephen : RomcalDay.t :=
  RomcalDay.mk (MomentString "2026-12-26T00:00:00.000Z") "FEAST"
    "Saint Stephen" "stephen" "u"
    (Data.mk None
       (Some (Meta.mk None (Some (ColorArray [KeyValue.mk "RED" "Red"]))))
       None).

Definition sampleEngine : Z -> JS.Value -> Completion (list RomcalDay.t) :=
  fun _ _ => Normal [christmas; stephen].

Definition UTC_host : Z -> Z := fun _ => 0%Z.

(** A [toLowerCase] for the examples, whose identifiers are written in
    ASCII: the letters [A] to [Z] become [a] to [z], every other character
    is kept. *)
Definition sampleToLowerCase : string -> string :=
  fix lower (s : string) : string :=
    match s with
    | EmptyString => EmptyString
    | String c s' =>
        let n := nat_of_ascii c in
        String (if ((65 <=? n) && (n <=? 90))%nat then ascii_of_nat (n + 32) else c)
               (lower s')
    end.

(** Midnight UTC of 25 December 2026. *)
Definition christmas2026 : JS.Date := 1798156800000%Z.

(** A host five hours behind UTC all year round. *)
Definition UTC_minus_5 : Z -> Z := fun _ => (-18000000)%Z.

Open Scope Z_scope.

(** Strings of decimal digits, and what follows the leading digits. *)
Fixpoint all_digits (s : string) : bool :=
  match s with
  | EmptyString => true
  | String c s' => JS.is_digit c && all_digits s'
  end.

Fixpoint skip_digits (s : string) : string :=
  match s with
  | EmptyString => EmptyString
  | String c s' => if JS.is_digit c then skip_digits s' else s
  end.

(** The decimal digits of a non-negative number. *)
Definition decimal (n : Z) : string :=
  JS.digits_of (S (Z.to_nat (Z.log2 n))) n EmptyString.

Close Scope Z_scope.

Import RoutesTs.

(** The response of the resolving part of both handlers. *)
Definition resolved (notFound : string) (outcome : option LiturgicalDayResponse.t)
  : HttpResponse :=
  match outcome with
  | None => c_json (ErrorJson (ErrorResponse.mk "NOT_FOUND" notFound 404)) 404
  | Some day => c_json (DayJson day) 200
  end.

(** The error code of a response, [None] for a success. *)
Definition errorCode (response : HttpResponse) : option string :=
  match jsonBody response with
  | ErrorJson e => Some (ErrorResponse.error e)
  | DayJson _ => None
  end.

(** A response is well formed when it is a 200 with a day, or a 400 or 404
    with an error body that repeats the status. *)
Definition wellFormed (response : HttpResponse) : Prop :=
  match jsonBody response with
  | DayJson _ => httpStatus response = 200%Z
  | ErrorJson e =>
      ErrorResponse.status e = httpStatus response
      /\ (httpStatus response = 400%Z \/ httpStatus response = 404%Z)
  end.

(* ===================================================================== *)
(** * Date arithmetic, parsing and formatting                             *)
(* ===================================================================== *)

Open Scope Z_scope.

Ltac zdiv := Z.to_euclidean_division_equations; lia.




Lemma mod100_mod4 y : y mod 100 = 0 -> y mod 4 = 0.
Proof. zdiv. Qed.

Lemma mod400_mod100 y : y mod 400 = 0 -> y mod 100 = 0.
Proof. zdiv. Qed.

Lemma DaysInYear_leapYear y :
  JS.DaysInYear y = if Gregorian.leapYear y then 366 else 365.
Proof.
  unfold JS.DaysInYear, Gregorian.leapYear.
  pose proof (mod100_mod4 y). pose proof (mod400_mod100 y).
  destruct (Z.eqb_spec (y mod 4) 0), (Z.eqb_spec (y mod 100) 0),
    (Z.eqb_spec (y mod 400) 0); cbn; lia.
Qed.

Lemma floor_step4 y :
  (y + 1 - 1969) / 4 = (y - 1969) / 4 + (if y mod 4 =? 0 then 1 else 0).
Proof. destruct (Z.eqb_spec (y mod 4) 0); zdiv. Qed.

Lemma floor_step100 y :
  (y + 1 - 1901) / 100 = (y - 1901) / 100 + (if y mod 100 =? 0 then 1 else 0).
Proof. destruct (Z.eqb_spec (y mod 100) 0); zdiv. Qed.

Lemma floor_step400 y :
  (y + 1 - 1601) / 400 = (y - 1601) / 400 + (if y mod 400 =? 0 then 1 else 0).
Proof. destruct (Z.eqb_spec (y mod 400) 0); zdiv. Qed.

Lemma DayFromYear_succ y : JS.DayFromYear (y + 1) = JS.DayFromYear y + JS.DaysInYear y.
Proof.
  unfold JS.DayFromYear, JS.DaysInYear.
  rewrite floor_step4, floor_step100, floor_step400.
  pose proof (mod100_mod4 y). pose proof (mod400_mod100 y).
  destruct (Z.eqb_spec (y mod 4) 0), (Z.eqb_spec (y mod 100) 0),
    (Z.eqb_spec (y mod 400) 0); cbn [negb]; lia.
Qed.

Lemma DayFromYear_mono a b : a <= b -> JS.DayFromYear a <= JS.DayFromYear b.
Proof. unfold JS.DayFromYear. intros. zdiv. Qed.

Lemma YearFromDay_bounds d :
  JS.DayFromYear (JS.YearFromDay d) <= d < JS.DayFromYear (JS.YearFromDay d + 1).
Proof.
  unfold JS.YearFromDay.
  set (y := 1970 + 400 * d / 146097).
  destruct (Z.ltb_spec d (JS.DayFromYear y)) as [H | H].
  - unfold JS.DayFromYear in *. subst y. zdiv.
  - destruct (Z.leb_spec (JS.DayFromYear (y + 1)) d) as [H' | H'];
      unfold JS.DayFromYear in *; subst y; zdiv.
Qed.

Lemma YearFromDay_unique y d :
  JS.DayFromYear y <= d < JS.DayFromYear (y + 1) -> JS.YearFromDay d = y.
Proof.
  intros Hy. pose proof (YearFromDay_bounds d) as HY.
  destruct (Z.lt_trichotomy (JS.YearFromDay d) y) as [Hlt | [Heq | Hgt]]; [| exact Heq |].
  - pose proof (DayFromYear_mono (JS.YearFromDay d + 1) y). lia.
  - pose proof (DayFromYear_mono (y + 1) (JS.YearFromDay d)). lia.
Qed.

Lemma Day_MakeDate day : JS.Day (JS.MakeDate day (JS.MakeTime 0 0 0 0)) = day.
Proof.
  unfold JS.Day, JS.MakeDate, JS.MakeTime, JS.msPerDay. zdiv.
Qed.

Lemma DaysInYear_cases y : JS.DaysInYear y = 365 \/ JS.DaysInYear y = 366.
Proof. rewrite DaysInYear_leapYear. destruct (Gregorian.leapYear y); lia. Qed.

(** the civil fields of a time value, from the day within the year *)
Lemma fields_of_day t y w :
  JS.Day t = JS.DayFromYear y + w ->
  0 <= w < JS.DaysInYear y ->
  JS.YearFromTime t = y /\ JS.DayWithinYear t = w
  /\ JS.InLeapYear t = (if Gregorian.leapYear y then 1 else 0).
Proof.
  intros Hday Hw.
  assert (Hy : JS.YearFromTime t = y).
  { unfold JS.YearFromTime. apply YearFromDay_unique.
    rewrite DayFromYear_succ. lia. }
  unfold JS.DayWithinYear, JS.InLeapYear. rewrite Hy.
  repeat split; [lia |].
  rewrite DaysInYear_leapYear. by destruct (Gregorian.leapYear y).
Qed.

Ltac month_index :=
  repeat match goal with
    | |- context [Z.pos ?p - 1] =>
        let v := eval vm_compute in (Z.pos p - 1) in
        change (Z.pos p - 1) with v
    end.

Ltac month_case := month_index; cbn -[Z.le Z.lt Z.add Z.sub] in *.

Ltac split_ltb :=
  repeat match goal with
    | |- context [?a <? ?b] => destruct (Z.ltb_spec a b); try lia
    end.

Lemma MakeDay_valid y m d :
  Gregorian.valid y m d ->
  JS.MakeDay y (m - 1) d
  = JS.DayFromYear y + (JS.DaysBeforeMonth y (m - 1) + d - 1)
  /\ 0 <= JS.DaysBeforeMonth y (m - 1) + d - 1 < JS.DaysInYear y.
Proof.
  intros [Hm Hd]. unfold JS.MakeDay.
  replace ((m - 1) / 12) with 0 by zdiv.
  replace ((m - 1) mod 12) with (m - 1) by zdiv.
  rewrite Z.add_0_r. split; [lia |].
  unfold JS.DaysBeforeMonth. rewrite DaysInYear_leapYear.
  unfold Gregorian.daysInMonth in Hd.
  assert (Hcases : m = 1 \/ m = 2 \/ m = 3 \/ m = 4 \/ m = 5 \/ m = 6 \/ m = 7
                   \/ m = 8 \/ m = 9 \/ m = 10 \/ m = 11 \/ m = 12) by lia.
  revert Hd. destruct (Gregorian.leapYear y); intros Hd;
    repeat (destruct Hcases as [-> | Hcases]; [month_case; lia |]). 
    all: subst m; month_case; lia.
Qed.

Lemma civil_of_valid y m d t :
  Gregorian.valid y m d ->
  JS.Day t = JS.MakeDay y (m - 1) d ->
  JS.YearFromTime t = y /\ JS.MonthFromTime t = m - 1 /\ JS.DateFromTime t = d.
Proof.
  intros Hv Hday.
  destruct (MakeDay_valid y m d Hv) as [Hmk Hw].
  destruct (fields_of_day t y (JS.DaysBeforeMonth y (m - 1) + d - 1))
    as (Hy & Hdw & Hleap); [congruence | exact Hw |].
  split; [exact Hy |].
  destruct Hv as [Hm Hd].
  assert (Hmonth : JS.MonthFromTime t = m - 1).
  { unfold JS.MonthFromTime. rewrite Hdw, Hleap.
    unfold JS.DaysBeforeMonth. rewrite DaysInYear_leapYear.
    unfold Gregorian.daysInMonth in Hd.
    assert (Hcases : m = 1 \/ m = 2 \/ m = 3 \/ m = 4 \/ m = 5 \/ m = 6 \/ m = 7
                     \/ m = 8 \/ m = 9 \/ m = 10 \/ m = 11 \/ m = 12) by lia.
    revert Hd. destruct (Gregorian.leapYear y); intros Hd;
      repeat (destruct Hcases as [-> | Hcases]; [month_case; split_ltb |]);
      subst m; month_case; split_ltb. }
  split; [exact Hmonth |].
  unfold JS.DateFromTime. rewrite Hmonth, Hdw, Hleap.
  unfold JS.DaysBeforeMonth. rewrite DaysInYear_leapYear.
  assert (Hcases : m = 1 \/ m = 2 \/ m = 3 \/ m = 4 \/ m = 5 \/ m = 6 \/ m = 7
                   \/ m = 8 \/ m = 9 \/ m = 10 \/ m = 11 \/ m = 12) by lia.
  destruct (Gregorian.leapYear y);
    repeat (destruct Hcases as [-> | Hcases]; [month_case; lia |]);
    subst m; month_case; lia.
Qed.

Lemma DayWithinYear_range t : 0 <= JS.DayWithinYear t < JS.DaysInYear (JS.YearFromTime t).
Proof.
  unfold JS.DayWithinYear, JS.YearFromTime.
  pose proof (YearFromDay_bounds (JS.Day t)) as H.
  rewrite DayFromYear_succ in H. lia.
Qed.

(** The fields read off any time value form a date of the calendar, and
    [MakeDay] maps them back to the day of the time value. *)
Lemma fields_valid t :
  Gregorian.valid (JS.YearFromTime t) (JS.MonthFromTime t + 1) (JS.DateFromTime t)
  /\ JS.Day t = JS.MakeDay (JS.YearFromTime t) (JS.MonthFromTime t) (JS.DateFromTime t).
Proof.
  pose proof (DayWithinYear_range t) as Hw.
  assert (Hday : JS.Day t = JS.DayFromYear (JS.YearFromTime t) + JS.DayWithinYear t)
    by (unfold JS.DayWithinYear; lia).
  unfold Gregorian.valid, JS.MakeDay, JS.DateFromTime, JS.MonthFromTime.
  rewrite Hday. clear Hday.
  unfold JS.DaysBeforeMonth, JS.InLeapYear, Gregorian.daysInMonth.
  rewrite DaysInYear_leapYear in *.
  revert Hw. generalize (JS.DayWithinYear t) as w.
  generalize (JS.YearFromTime t) as y. intros y w.
  destruct (Gregorian.leapYear y) eqn:Hleap; intros Hw;
    change (366 =? 365) with false; change (365 =? 365) with true;
    cbv iota; split_ltb;
    match goal with
    | |- context [?k mod 12] =>
        change (k mod 12) with k; change (k / 12) with 0;
        change (k + 1) with ltac:(let v := eval vm_compute in (k + 1) in exact v)
    end;
    rewrite ?Z.add_0_r, ?DaysInYear_leapYear, ?Hleap;
    change (366 =? 365) with false; change (365 =? 365) with true;
    cbv iota; lia.
Qed.

(** [YearFromTime] is the year of the standard: the largest [y] with
    [TimeFromYear y <= t]. *)
Lemma YearFromTime_largest t :
  JS.TimeFromYear (JS.YearFromTime t) <= t
  /\ forall y, JS.TimeFromYear y <= t -> y <= JS.YearFromTime t.
Proof.
  pose proof (YearFromDay_bounds (JS.Day t)) as [Hlo Hhi].
  fold (JS.YearFromTime t) in Hlo, Hhi.
  unfold JS.TimeFromYear. split.
  - unfold JS.Day, JS.msPerDay in *. zdiv.
  - intros y Hy.
    assert (Hd : JS.DayFromYear y <= JS.Day t)
      by (unfold JS.Day, JS.msPerDay in *; zdiv).
    destruct (Z.le_gt_cases y (JS.YearFromTime t)) as [| Hgt]; [done |].
    pose proof (DayFromYear_mono (JS.YearFromTime t + 1) y). lia.
Qed.

(** [MakeDay] is the day of the standard: the day of the first of the month
    [mn] of the year [ym], moved by [date - 1] days. *)
Lemma MakeDay_first_of_month ym mn :
  0 <= mn <= 11 ->
  let t := JS.MakeDate (JS.MakeDay ym mn 1) (JS.MakeTime 0 0 0 0) in
  JS.YearFromTime t = ym /\ JS.MonthFromTime t = mn /\ JS.DateFromTime t = 1.
Proof.
  intros Hmn t.
  assert (Hv : Gregorian.valid ym (mn + 1) 1).
  { split; [lia |]. unfold Gregorian.daysInMonth.
    assert (Hcases : mn = 0 \/ mn = 1 \/ mn = 2 \/ mn = 3 \/ mn = 4 \/ mn = 5
                     \/ mn = 6 \/ mn = 7 \/ mn = 8 \/ mn = 9 \/ mn = 10
                     \/ mn = 11) by lia.
    destruct (Gregorian.leapYear ym);
      repeat (destruct Hcases as [-> | Hcases]; [vm_compute; split; discriminate |]);
      subst mn; vm_compute; split; discriminate. }
  destruct (civil_of_valid ym (mn + 1) 1 t Hv) as (Hy & Hm & Hd).
  { subst t. rewrite Day_MakeDate. by replace (mn + 1 - 1) with mn by lia. }
  repeat split; [done | lia | done].
Qed.

Lemma MakeDay_date year month date :
  JS.MakeDay year month date
  = JS.MakeDay (year + month / 12) (month mod 12) 1 + date - 1.
Proof.
  unfold JS.MakeDay.
  replace (month mod 12 / 12) with 0 by zdiv.
  replace (month mod 12 mod 12) with (month mod 12) by zdiv.
  rewrite Z.add_0_r. lia.
Qed.

Lemma is_digit_spec c :
  JS.is_digit c = true ->
  0 <= JS.digit_value c <= 9 /\ JS.digit_to_ascii (JS.digit_value c) = c.
Proof.
  destruct c as [[] [] [] [] [] [] [] []]; vm_compute; intros H;
    try discriminate H; split; try reflexivity; split; discriminate.
Qed.

Lemma parseInt10_2 c1 c2 :
  JS.is_digit c1 = true -> JS.is_digit c2 = true ->
  JS.parseInt10 (String c1 (String c2 EmptyString))
  = 10 * JS.digit_value c1 + JS.digit_value c2.
Proof.
  intros H1 H2. unfold JS.parseInt10. cbn [JS.parseInt_from].
  rewrite H1, H2. lia.
Qed.

Lemma parseInt10_4 c1 c2 c3 c4 :
  JS.is_digit c1 = true -> JS.is_digit c2 = true ->
  JS.is_digit c3 = true -> JS.is_digit c4 = true ->
  JS.parseInt10 (String c1 (String c2 (String c3 (String c4 EmptyString))))
  = 1000 * JS.digit_value c1 + 100 * JS.digit_value c2
    + 10 * JS.digit_value c3 + JS.digit_value c4.
Proof.
  intros H1 H2 H3 H4. unfold JS.parseInt10. cbn [JS.parseInt_from].
  rewrite H1, H2, H3, H4. lia.
Qed.

(** What a match of the pattern looks like. *)
Lemma dateRegex_match_Some s yearStr monthStr dayStr :
  DateTs.dateRegex_match s = Some (yearStr, monthStr, dayStr) ->
  exists y1 y2 y3 y4 m1 m2 d1 d2,
    Forall (fun c => JS.is_digit c = true) [y1; y2; y3; y4; m1; m2; d1; d2]
    /\ yearStr = String y1 (String y2 (String y3 (String y4 EmptyString)))
    /\ monthStr = String m1 (String m2 EmptyString)
    /\ dayStr = String d1 (String d2 EmptyString)
    /\ s = (yearStr ++ "-" ++ monthStr ++ "-" ++ dayStr)%string.
Proof.
  unfold DateTs.dateRegex_match.
  destruct s as [| y1 [| y2 [| y3 [| y4 [| s1 [| m1 [| m2 [| s2 [| d1 [| d2 [| ? ?]]]]]]]]]]];
    try discriminate.
  destruct (forallb JS.is_digit _) eqn:Hd; [| discriminate].
  destruct (Ascii.eqb_spec s1 "-") as [-> |]; [| discriminate].
  destruct (Ascii.eqb_spec s2 "-") as [-> |]; [| discriminate].
  cbn [andb]. intros [= <- <- <-].
  exists y1, y2, y3, y4, m1, m2, d1, d2.
  split; [| by repeat split].
  apply Forall_forall. intros c Hc. rewrite forallb_forall in Hd.
  by apply Hd, list_elem_of_In.
Qed.

Ltac digit_facts :=
  repeat match goal with
    | H : Forall _ (_ :: _) |- _ => apply Forall_cons in H as [? H]
    | H : Forall _ [] |- _ => clear H
    | H : JS.is_digit ?c = true |- _ =>
        lazymatch goal with
        | _ : 0 <= JS.digit_value c <= 9 |- _ => fail
        | _ => pose proof (proj1 (is_digit_spec c H))
        end
    end.

(** The numbers read from the three groups. *)
Lemma groups_range s yearStr monthStr dayStr :
  DateTs.dateRegex_match s = Some (yearStr, monthStr, dayStr) ->
  0 <= JS.parseInt10 yearStr <= 9999
  /\ 0 <= JS.parseInt10 monthStr <= 99
  /\ 0 <= JS.parseInt10 dayStr <= 99.
Proof.
  intros H. apply dateRegex_match_Some in H
    as (y1 & y2 & y3 & y4 & m1 & m2 & d1 & d2 & Hd & -> & -> & -> & _).
  digit_facts.
  rewrite parseInt10_4, !parseInt10_2 by assumption.
  lia.
Qed.

Lemma DayFromYear_range y :
  0 <= y <= 9999 -> -800000 <= JS.DayFromYear y <= 3000000.
Proof. unfold JS.DayFromYear. intros. zdiv. Qed.

Lemma MakeDate_midnight day :
  JS.MakeDate day (JS.MakeTime 0 0 0 0) = day * JS.msPerDay.
Proof. unfold JS.MakeDate, JS.MakeTime. lia. Qed.

Lemma DaysBeforeMonth_range y m : 0 <= JS.DaysBeforeMonth y m <= 335.
Proof.
  unfold JS.DaysBeforeMonth.
  destruct (JS.DaysInYear y =? 365); destruct m as [| p | p]; try lia;
    do 4 (try destruct p as [p | p |]); lia.
Qed.

Lemma MakeFullYear_100 y : 100 <= y -> JS.MakeFullYear y = y.
Proof.
  intros H. unfold JS.MakeFullYear.
  destruct (Z.leb_spec y 99); [lia |]. by rewrite andb_false_r.
Qed.

Lemma Date_UTC_valid y m d :
  100 <= y <= 9999 -> Gregorian.valid y m d ->
  JS.Date_UTC y (m - 1) d
  = Some (JS.MakeDate (JS.MakeDay y (m - 1) d) (JS.MakeTime 0 0 0 0)).
Proof.
  intros Hy Hv. unfold JS.Date_UTC, JS.TimeClip.
  rewrite MakeFullYear_100 by lia.
  destruct (MakeDay_valid y m d Hv) as [-> Hw].
  pose proof (DaysInYear_cases y). pose proof (DayFromYear_range y).
  rewrite MakeDate_midnight. unfold JS.msPerDay.
  destruct (Z.gtb_spec (Z.abs ((JS.DayFromYear y
              + (JS.DaysBeforeMonth y (m - 1) + d - 1)) * 86400000))
              8640000000000000); [lia | reflexivity].
Qed.

(** [parseDate] accepts a string exactly when it matches the pattern, its
    year is at least 100, and its three numbers are a date of the Gregorian
    calendar; the Date returned is midnight UTC of that date. *)
Lemma parseDate_matched s yearStr monthStr dayStr t :
  DateTs.dateRegex_match s = Some (yearStr, monthStr, dayStr) ->
  DateTs.parseDate s = Some t <->
  100 <= JS.parseInt10 yearStr
  /\ Gregorian.valid (JS.parseInt10 yearStr) (JS.parseInt10 monthStr)
       (JS.parseInt10 dayStr)
  /\ t = JS.MakeDay (JS.parseInt10 yearStr) (JS.parseInt10 monthStr - 1)
           (JS.parseInt10 dayStr) * JS.msPerDay.
Proof.
  intros Hm. unfold DateTs.parseDate. rewrite Hm.
  destruct (groups_range _ _ _ _ Hm) as (Hy & Hmo & Hda).
  set (y := JS.parseInt10 yearStr) in *.
  set (m := JS.parseInt10 monthStr) in *.
  set (d := JS.parseInt10 dayStr) in *.
  clearbody y m d.
  split.
  - destruct (JS.Date_UTC y (m - 1) d) as [date |] eqn:Hutc; [| discriminate].
    unfold JS.getUTCFullYear, JS.getUTCMonth, JS.getUTCDate.
    destruct (Z.eqb_spec (JS.YearFromTime date) y) as [Hyear |]; [| discriminate].
    destruct (Z.eqb_spec (JS.MonthFromTime date) (m - 1)) as [Hmonth |]; [| discriminate].
    destruct (Z.eqb_spec (JS.DateFromTime date) d) as [Hdate |]; [| discriminate].
    cbn [negb orb]. intros [= ->].
    destruct (fields_valid t) as [Hv Hday].
    rewrite Hyear, Hmonth, Hdate in Hv, Hday.
    replace (m - 1 + 1) with m in Hv by lia.
    unfold JS.Date_UTC, JS.TimeClip in Hutc.
    destruct (_ >? _); [discriminate |]. injection Hutc as Hutc.
    rewrite MakeDate_midnight in Hutc.
    assert (Hfull : JS.Day t = JS.MakeDay (JS.MakeFullYear y) (m - 1) d).
    { rewrite <- Hutc. unfold JS.Day, JS.msPerDay. zdiv. }
    assert (100 <= y).
    { destruct (Z.le_gt_cases 100 y) as [| Hsmall]; [done | exfalso].
      unfold JS.MakeFullYear in Hfull.
      destruct (Z.leb_spec 0 y); [| lia]. destruct (Z.leb_spec y 99); [| lia].
      cbn [andb] in Hfull.
      unfold JS.MakeDay in Hfull.
      destruct Hv as [Hv1 Hv2].
      replace ((m - 1) / 12) with 0 in Hfull by zdiv.
      rewrite Z.add_0_r in Hfull.
      pose proof (DaysBeforeMonth_range (1900 + y) ((m - 1) mod 12)).
      pose proof (YearFromDay_bounds (JS.Day t)) as Hb.
      fold (JS.YearFromTime t) in Hb. rewrite Hyear in Hb.
      pose proof (DayFromYear_mono (y + 1) (1900 + y)).
      unfold Gregorian.daysInMonth in Hv2.
      lia. }
    rewrite MakeFullYear_100 in Hutc by done. done.
  - intros (Hy100 & Hv & ->).
    rewrite Date_UTC_valid by (done || lia).
    rewrite MakeDate_midnight.
    destruct (civil_of_valid y m d (JS.MakeDay y (m - 1) d * JS.msPerDay) Hv)
      as (Hyear & Hmonth & Hdate).
    { unfold JS.Day, JS.msPerDay. zdiv. }
    unfold JS.getUTCFullYear, JS.getUTCMonth, JS.getUTCDate.
    rewrite Hyear, Hmonth, Hdate, !Z.eqb_refl. reflexivity.
Qed.

Lemma digits_of_step fuel n acc :
  JS.digits_of (S fuel) n acc =
  if n <? 10 then String (JS.digit_to_ascii (n mod 10)) acc
  else JS.digits_of fuel (n / 10) (String (JS.digit_to_ascii (n mod 10)) acc).
Proof. reflexivity. Qed.

Lemma log2_fuel n k :
  2 ^ k <= n -> 0 <= k -> exists fuel, Z.to_nat (Z.log2 n) = (Z.to_nat k + fuel)%nat.
Proof.
  intros Hn Hk.
  assert (k <= Z.log2 n).
  { rewrite <- (Z.log2_pow2 k) by done. by apply Z.log2_le_mono. }
  exists (Z.to_nat (Z.log2 n - k)). lia.
Qed.

Lemma Number_toString_1 n :
  0 <= n <= 9 -> JS.Number_toString n = String (JS.digit_to_ascii n) EmptyString.
Proof.
  intros Hn. unfold JS.Number_toString.
  destruct (Z.ltb_spec n 0); [lia |].
  rewrite digits_of_step. destruct (Z.ltb_spec n 10); [| lia].
  by rewrite Z.mod_small by lia.
Qed.

Lemma Number_toString_2 a b :
  1 <= a <= 9 -> 0 <= b <= 9 ->
  JS.Number_toString (10 * a + b)
  = String (JS.digit_to_ascii a) (String (JS.digit_to_ascii b) EmptyString).
Proof.
  intros Ha Hb. unfold JS.Number_toString.
  destruct (Z.ltb_spec (10 * a + b) 0); [lia |].
  destruct (log2_fuel (10 * a + b) 1) as [fuel ->]; [lia | lia |].
  change (Z.to_nat 1) with 1%nat. cbn [Nat.add].
  rewrite !digits_of_step.
  destruct (Z.ltb_spec (10 * a + b) 10); [lia |].
  replace ((10 * a + b) mod 10) with b by zdiv.
  replace ((10 * a + b) / 10) with a by zdiv.
  destruct (Z.ltb_spec a 10); [| lia].
  by rewrite Z.mod_small by lia.
Qed.

Lemma Number_toString_4 a b c d :
  1 <= a <= 9 -> 0 <= b <= 9 -> 0 <= c <= 9 -> 0 <= d <= 9 ->
  JS.Number_toString (1000 * a + 100 * b + 10 * c + d)
  = String (JS.digit_to_ascii a) (String (JS.digit_to_ascii b)
      (String (JS.digit_to_ascii c) (String (JS.digit_to_ascii d) EmptyString))).
Proof.
  intros Ha Hb Hc Hd. unfold JS.Number_toString.
  set (n := 1000 * a + 100 * b + 10 * c + d).
  destruct (Z.ltb_spec n 0); [lia |].
  destruct (log2_fuel n 3) as [fuel ->]; [lia | lia |].
  change (Z.to_nat 3) with 3%nat. cbn [Nat.add].
  rewrite !digits_of_step.
  destruct (Z.ltb_spec n 10); [lia |].
  replace (n mod 10) with d by (subst n; zdiv).
  replace (n / 10) with (100 * a + 10 * b + c) by (subst n; zdiv).
  destruct (Z.ltb_spec (100 * a + 10 * b + c) 10); [lia |].
  replace ((100 * a + 10 * b + c) mod 10) with c by zdiv.
  replace ((100 * a + 10 * b + c) / 10) with (10 * a + b) by zdiv.
  destruct (Z.ltb_spec (10 * a + b) 10); [lia |].
  replace ((10 * a + b) mod 10) with b by zdiv.
  replace ((10 * a + b) / 10) with a by zdiv.
  destruct (Z.ltb_spec a 10); [| lia].
  by rewrite Z.mod_small by lia.
Qed.

Lemma padStart_2 a b :
  0 <= a <= 9 -> 0 <= b <= 9 ->
  JS.String_padStart (JS.Number_toString (10 * a + b)) 2 "0"
  = String (JS.digit_to_ascii a) (String (JS.digit_to_ascii b) EmptyString).
Proof.
  intros Ha Hb. destruct (Z.eq_dec a 0) as [-> | Hne].
  - rewrite Number_toString_1 by lia. by replace (10 * 0 + b) with b by lia.
  - by rewrite Number_toString_2 by lia.
Qed.

(** A host whose local time is between 0 and 24 hours ahead of UTC at the
    instant [t] reads, from a midnight-UTC Date, the fields of that day. *)
Lemma Day_LocalTime LocalTZA day :
  0 <= LocalTZA (day * JS.msPerDay) < JS.msPerDay ->
  JS.Day (JS.LocalTime LocalTZA (day * JS.msPerDay)) = day.
Proof.
  unfold JS.LocalTime, JS.Day, JS.msPerDay. intros H. zdiv.
Qed.

(** On such a host, and for a year of four significant digits, formatting
    a parsed date gives the string back. *)
Lemma formatDate_parseDate LocalTZA s t :
  DateTs.parseDate s = Some t ->
  0 <= LocalTZA t < JS.msPerDay ->
  1000 <= JS.getUTCFullYear t ->
  DateTs.formatDate LocalTZA t = s.
Proof.
  intros Hparse Htz Hyear.
  destruct (DateTs.dateRegex_match s) as [[[yearStr monthStr] dayStr] |] eqn:Hm;
    [| unfold DateTs.parseDate in Hparse; by rewrite Hm in Hparse].
  apply (parseDate_matched _ _ _ _ t Hm) in Hparse as (Hy100 & Hv & ->).
  destruct (civil_of_valid _ _ _ (JS.LocalTime LocalTZA
              (JS.MakeDay (JS.parseInt10 yearStr) (JS.parseInt10 monthStr - 1)
                 (JS.parseInt10 dayStr) * JS.msPerDay)) Hv)
    as (Hfy & Hfm & Hfd); [by apply Day_LocalTime |].
  destruct (civil_of_valid _ _ _ (JS.MakeDay (JS.parseInt10 yearStr)
              (JS.parseInt10 monthStr - 1) (JS.parseInt10 dayStr) * JS.msPerDay) Hv)
    as (Huy & _ & _); [unfold JS.Day, JS.msPerDay; zdiv |].
  unfold JS.getUTCFullYear in Hyear. rewrite Huy in Hyear.
  unfold DateTs.formatDate, JS.getFullYear, JS.getMonth, JS.getDate.
  rewrite Hfy, Hfm, Hfd.
  replace (JS.parseInt10 monthStr - 1 + 1) with (JS.parseInt10 monthStr) by lia.
  apply dateRegex_match_Some in Hm
    as (y1 & y2 & y3 & y4 & m1 & m2 & d1 & d2 & Hd & -> & -> & -> & ->).
  digit_facts.
  rewrite parseInt10_4, !parseInt10_2 in * by assumption.
  rewrite Number_toString_4, !padStart_2 by lia.
  repeat match goal with
    | H : JS.is_digit ?c = true |- _ =>
        rewrite (proj2 (is_digit_spec c H)); clear H
    end.
  reflexivity.
Qed.

Lemma digit_to_ascii_spec v :
  0 <= v <= 9 ->
  JS.is_digit (JS.digit_to_ascii v) = true
  /\ JS.digit_value (JS.digit_to_ascii v) = v.
Proof.
  intros Hv.
  assert (Hcases : v = 0 \/ v = 1 \/ v = 2 \/ v = 3 \/ v = 4 \/ v = 5 \/ v = 6
                   \/ v = 7 \/ v = 8 \/ v = 9) by lia.
  repeat (destruct Hcases as [-> | Hcases]; [by vm_compute |]).
  subst v. by vm_compute.
Qed.

(** The first character that [digits_of] writes for a positive number is a
    digit other than zero. *)
Lemma digits_of_leading fuel n acc :
  1 <= n < 2 ^ Z.of_nat fuel ->
  exists v rest,
    1 <= v <= 9 /\ JS.digits_of fuel n acc = String (JS.digit_to_ascii v) rest.
Proof.
  revert n acc. induction fuel as [| fuel IH]; intros n acc Hn.
  - change (2 ^ Z.of_nat 0) with 1 in Hn. lia.
  - rewrite digits_of_step. destruct (Z.ltb_spec n 10) as [Hlt | Hge].
    + exists n, acc. split; [lia |]. by rewrite Z.mod_small by lia.
    + apply IH.
      rewrite Nat2Z.inj_succ, Z.pow_succ_r in Hn by lia.
      zdiv.
Qed.

Lemma Number_toString_leading n :
  1 <= n ->
  exists v rest,
    1 <= v <= 9 /\ JS.Number_toString n = String (JS.digit_to_ascii v) rest.
Proof.
  intros Hn. unfold JS.Number_toString.
  destruct (Z.ltb_spec n 0); [lia |].
  apply digits_of_leading.
  pose proof (Z.log2_spec n ltac:(lia)) as [_ Hhi].
  pose proof (Z.log2_nonneg n).
  rewrite Nat2Z.inj_succ, Z2Nat.id by lia. lia.
Qed.

(** [formatDate] never writes a year with a leading zero: on no host is
    its result a string that begins with ["0"] and a second digit. *)
Lemma formatDate_no_leading_zero LocalTZA t c rest :
  JS.is_digit c = true ->
  DateTs.formatDate LocalTZA t <> String "0" (String c rest).
Proof.
  intros Hc. unfold DateTs.formatDate.
  generalize (JS.getFullYear LocalTZA t) as y. intros y.
  generalize (JS.String_padStart
                (JS.Number_toString (JS.getMonth LocalTZA t + 1)) 2 "0") as mo.
  generalize (JS.String_padStart
                (JS.Number_toString (JS.getDate LocalTZA t)) 2 "0") as da.
  intros da mo.
  destruct (Z.lt_trichotomy y 0) as [Hneg | [-> | Hpos]].
  - unfold JS.Number_toString. destruct (Z.ltb_spec y 0); [| lia]. discriminate.
  - cbn. intros [= <-]. discriminate.
  - destruct (Number_toString_leading y) as (v & r & Hv & ->); [lia |].
    cbn [String.append]. intros [= Hd _].
    assert (Hcases : v = 1 \/ v = 2 \/ v = 3 \/ v = 4 \/ v = 5 \/ v = 6
                     \/ v = 7 \/ v = 8 \/ v = 9) by lia.
    repeat (destruct Hcases as [-> | Hcases]; [discriminate |]).
    subst v. discriminate.
Qed.

(** An accepted string whose year is below 1000 is not what [formatDate]
    returns for its Date, whatever the host. *)
Lemma formatDate_parseDate_year_below_1000 LocalTZA s t :
  DateTs.parseDate s = Some t ->
  JS.getUTCFullYear t < 1000 ->
  DateTs.formatDate LocalTZA t <> s.
Proof.
  intros Hparse Hyear.
  destruct (DateTs.dateRegex_match s) as [[[yearStr monthStr] dayStr] |] eqn:Hm;
    [| unfold DateTs.parseDate in Hparse; by rewrite Hm in Hparse].
  apply (parseDate_matched _ _ _ _ t Hm) in Hparse as (Hy100 & Hv & ->).
  destruct (civil_of_valid _ _ _ (JS.MakeDay (JS.parseInt10 yearStr)
              (JS.parseInt10 monthStr - 1) (JS.parseInt10 dayStr) * JS.msPerDay) Hv)
    as (Huy & _ & _); [unfold JS.Day, JS.msPerDay; zdiv |].
  unfold JS.getUTCFullYear in Hyear. rewrite Huy in Hyear.
  apply dateRegex_match_Some in Hm
    as (y1 & y2 & y3 & y4 & m1 & m2 & d1 & d2 & Hd & -> & -> & -> & ->).
  assert (Hy1 : JS.is_digit y1 = true) by (by apply Forall_cons in Hd as [? _]).
  assert (Hy2 : JS.is_digit y2 = true)
    by (by apply Forall_cons in Hd as [_ [? _]%Forall_cons]).
  digit_facts.
  rewrite parseInt10_4 in Hyear by assumption.
  assert (Hzero : JS.digit_value y1 = 0) by lia.
  pose proof (proj2 (is_digit_spec y1 Hy1)) as Hy1'. rewrite Hzero in Hy1'.
  rewrite <- Hy1'. cbn [String.append].
  by apply formatDate_no_leading_zero.
Qed.

(** [formatDate] depends on the Date and the host through the local day
    number only. *)
Lemma formatDate_Day tz1 t1 tz2 t2 :
  JS.Day (JS.LocalTime tz1 t1) = JS.Day (JS.LocalTime tz2 t2) ->
  DateTs.formatDate tz1 t1 = DateTs.formatDate tz2 t2.
Proof.
  intros H.
  unfold DateTs.formatDate, JS.getFullYear, JS.getMonth, JS.getDate,
    JS.DateFromTime, JS.MonthFromTime, JS.InLeapYear, JS.DayWithinYear,
    JS.YearFromTime.
  by rewrite H.
Qed.

Lemma two_digits v : 0 <= v <= 99 -> 0 <= v / 10 <= 9 /\ 0 <= v mod 10 <= 9
                                     /\ v = 10 * (v / 10) + v mod 10.
Proof. intros. zdiv. Qed.

Lemma dateRegex_match_digits a b c e m1 m2 d1 d2 :
  Forall (fun v => 0 <= v <= 9) [a; b; c; e; m1; m2; d1; d2] ->
  DateTs.dateRegex_match
    (String (JS.digit_to_ascii a) (String (JS.digit_to_ascii b)
       (String (JS.digit_to_ascii c) (String (JS.digit_to_ascii e)
          (String "-" (String (JS.digit_to_ascii m1) (String (JS.digit_to_ascii m2)
             (String "-" (String (JS.digit_to_ascii d1)
                (String (JS.digit_to_ascii d2) EmptyString))))))))))
  = Some (String (JS.digit_to_ascii a) (String (JS.digit_to_ascii b)
            (String (JS.digit_to_ascii c) (String (JS.digit_to_ascii e) EmptyString))),
          String (JS.digit_to_ascii m1) (String (JS.digit_to_ascii m2) EmptyString),
          String (JS.digit_to_ascii d1) (String (JS.digit_to_ascii d2) EmptyString)).
Proof.
  intros H.
  repeat match goal with
    | H : Forall _ (_ :: _) |- _ =>
        let Hd := fresh "Hd" in
        apply Forall_cons in H as [Hd H];
        apply digit_to_ascii_spec in Hd as [Hd _]
    end.
  unfold DateTs.dateRegex_match. cbn [forallb].
  repeat match goal with
    | H : JS.is_digit _ = true |- _ => rewrite H; clear H
    end.
  reflexivity.
Qed.

(** Parsing what [formatDate] wrote gives the Date back, for a Date at
    midnight UTC in a year of four significant digits, on a host that
    reads its UTC day. *)
Lemma parseDate_formatDate LocalTZA t :
  t mod JS.msPerDay = 0 ->
  JS.Day (JS.LocalTime LocalTZA t) = JS.Day t ->
  1000 <= JS.getUTCFullYear t <= 9999 ->
  DateTs.parseDate (DateTs.formatDate LocalTZA t) = Some t.
Proof.
  intros Hmid Hday Hyear. unfold JS.getUTCFullYear in Hyear.
  rewrite (formatDate_Day LocalTZA t UTC_host t)
    by (rewrite Hday; unfold JS.LocalTime, UTC_host; f_equal; lia).
  destruct (fields_valid t) as [Hv Hmk].
  unfold DateTs.formatDate, JS.getFullYear, JS.getMonth, JS.getDate, JS.LocalTime,
    UTC_host.
  rewrite Z.add_0_r.
  set (y := JS.YearFromTime t) in *.
  set (m := JS.MonthFromTime t + 1) in *.
  set (d := JS.DateFromTime t) in *.
  assert (Hm : 0 <= m <= 99) by (destruct Hv; lia).
  assert (Hd : 0 <= d <= 99).
  { destruct Hv as [Hv1 Hv2]. unfold Gregorian.daysInMonth in Hv2.
    assert (Hcases : m = 1 \/ m = 2 \/ m = 3 \/ m = 4 \/ m = 5 \/ m = 6 \/ m = 7
                     \/ m = 8 \/ m = 9 \/ m = 10 \/ m = 11 \/ m = 12) by lia.
    clearbody m. revert Hv2. destruct (Gregorian.leapYear y);
      repeat (destruct Hcases as [-> | Hcases]; [lia |]); subst m; lia. }
  destruct (two_digits m Hm) as (Hm1 & Hm2 & Hmeq).
  destruct (two_digits d Hd) as (Hd1 & Hd2 & Hdeq).
  assert (Hyeq : y = 1000 * (y / 1000) + 100 * (y / 100 mod 10)
                     + 10 * (y / 10 mod 10) + y mod 10) by zdiv.
  assert (Hy1 : 1 <= y / 1000 <= 9) by zdiv.
  assert (Hy2 : 0 <= y / 100 mod 10 <= 9) by zdiv.
  assert (Hy3 : 0 <= y / 10 mod 10 <= 9) by zdiv.
  assert (Hy4 : 0 <= y mod 10 <= 9) by zdiv.
  rewrite Hyeq at 1. rewrite Hmeq at 1. rewrite Hdeq at 1.
  rewrite Number_toString_4, !padStart_2 by lia.
  assert (Hdigits : Forall (fun v => 0 <= v <= 9)
                      [y / 1000; y / 100 mod 10; y / 10 mod 10; y mod 10;
                       m / 10; m mod 10; d / 10; d mod 10])
    by (repeat (apply List.Forall_cons; [cbv beta; lia |]); apply List.Forall_nil).
  apply (parseDate_matched _ _ _ _ t (dateRegex_match_digits _ _ _ _ _ _ _ _ Hdigits)).
  clear Hdigits.
  rewrite parseInt10_4, !parseInt10_2
    by (apply digit_to_ascii_spec; lia).
  rewrite (proj2 (digit_to_ascii_spec (y / 1000) ltac:(lia))),
    (proj2 (digit_to_ascii_spec (y / 100 mod 10) Hy2)),
    (proj2 (digit_to_ascii_spec (y / 10 mod 10) Hy3)),
    (proj2 (digit_to_ascii_spec (y mod 10) Hy4)),
    (proj2 (digit_to_ascii_spec (m / 10) Hm1)),
    (proj2 (digit_to_ascii_spec (m mod 10) Hm2)),
    (proj2 (digit_to_ascii_spec (d / 10) Hd1)),
    (proj2 (digit_to_ascii_spec (d mod 10) Hd2)).
  rewrite <- Hyeq, <- Hmeq, <- Hdeq.
  split; [lia |]. split; [exact Hv |].
  subst m. replace (JS.MonthFromTime t + 1 - 1) with (JS.MonthFromTime t) by lia.
  rewrite <- Hmk. unfold JS.Day, JS.msPerDay in *. zdiv.
Qed.

Lemma YearFromDay_pred d :
  JS.YearFromDay d - 1 <= JS.YearFromDay (d - 1) <= JS.YearFromDay d.
Proof.
  pose proof (YearFromDay_bounds d) as [Hlo Hhi].
  pose proof (YearFromDay_bounds (d - 1)) as [Hlo' Hhi'].
  split.
  - destruct (Z.le_gt_cases (JS.YearFromDay d - 1) (JS.YearFromDay (d - 1)))
      as [| Hlt]; [done | exfalso].
    pose proof (DayFromYear_mono (JS.YearFromDay (d - 1) + 1) (JS.YearFromDay d - 1)
                  ltac:(lia)).
    pose proof (DayFromYear_succ (JS.YearFromDay d - 1)) as Hs.
    replace (JS.YearFromDay d - 1 + 1) with (JS.YearFromDay d) in Hs by lia.
    pose proof (DaysInYear_cases (JS.YearFromDay d - 1)). lia.
  - destruct (Z.le_gt_cases (JS.YearFromDay (d - 1)) (JS.YearFromDay d))
      as [| Hgt]; [done | exfalso].
    pose proof (DayFromYear_mono (JS.YearFromDay d + 1) (JS.YearFromDay (d - 1))
                  ltac:(lia)).
    lia.
Qed.

(** On a host whose local time is behind UTC, by a day at most, an accepted
    string after the year 1000 is not what [formatDate] returns for its
    Date: the result is the string of the day before. *)
Lemma formatDate_parseDate_west LocalTZA s t :
  DateTs.parseDate s = Some t ->
  - JS.msPerDay <= LocalTZA t < 0 ->
  1000 < JS.getUTCFullYear t ->
  DateTs.formatDate LocalTZA t = DateTs.formatDate UTC_host (t - JS.msPerDay)
  /\ DateTs.formatDate LocalTZA t <> s.
Proof.
  intros Hparse Htz Hyear.
  assert (Hs := Hparse).
  destruct (DateTs.dateRegex_match s) as [[[yearStr monthStr] dayStr] |] eqn:Hm;
    [| unfold DateTs.parseDate in Hparse; by rewrite Hm in Hparse].
  apply (parseDate_matched _ _ _ _ t Hm) in Hparse as (Hy100 & Hv & Ht).
  destruct (civil_of_valid _ _ _ t Hv) as (Huy & _ & _);
    [rewrite Ht; unfold JS.Day, JS.msPerDay; zdiv |].
  destruct (groups_range _ _ _ _ Hm) as (Hy & _ & _).
  unfold JS.getUTCFullYear in Hyear.
  set (day := JS.MakeDay (JS.parseInt10 yearStr) (JS.parseInt10 monthStr - 1)
                (JS.parseInt10 dayStr)) in *.
  assert (Hday : JS.Day t = day) by (rewrite Ht; unfold JS.Day, JS.msPerDay; zdiv).
  assert (Hprev : JS.Day (t - JS.msPerDay) = day - 1)
    by (rewrite Ht; unfold JS.Day, JS.msPerDay; zdiv).
  assert (Heq : DateTs.formatDate LocalTZA t
                = DateTs.formatDate UTC_host (t - JS.msPerDay)).
  { apply formatDate_Day. unfold JS.LocalTime at 2, UTC_host.
    rewrite Z.add_0_r, Hprev.
    unfold JS.LocalTime, JS.Day, JS.msPerDay in *. rewrite Ht in *. zdiv. }
  split; [exact Heq |].
  intros Hback. rewrite Heq in Hback.
  assert (Hparse' : DateTs.parseDate (DateTs.formatDate UTC_host (t - JS.msPerDay))
                    = Some (t - JS.msPerDay)).
  { apply parseDate_formatDate.
    - rewrite Ht. unfold JS.msPerDay. zdiv.
    - unfold JS.LocalTime, UTC_host. f_equal. lia.
    - unfold JS.getUTCFullYear, JS.YearFromTime in *.
      rewrite Hprev. rewrite Hday in *.
      pose proof (YearFromDay_pred day). lia. }
  rewrite Hback, Hs in Hparse'. injection Hparse' as Habs.
  unfold JS.msPerDay in Habs. lia.
Qed.

Lemma isValidDate_iff s :
  DateTs.isValidDate s = true <-> DateTs.parseDate s <> None.
Proof. unfold DateTs.isValidDate. by destruct (DateTs.parseDate s). Qed.

(** [parseDate] returns [null] exactly when the string does not match the
    pattern, or matches it with a year below 100, or matches it with
    numbers that are not a date of the Gregorian calendar. *)
Lemma parseDate_None_iff s :
  DateTs.parseDate s = None <->
  DateTs.dateRegex_match s = None
  \/ exists yearStr monthStr dayStr,
       DateTs.dateRegex_match s = Some (yearStr, monthStr, dayStr)
       /\ (JS.parseInt10 yearStr < 100
           \/ ~ Gregorian.valid (JS.parseInt10 yearStr) (JS.parseInt10 monthStr)
                  (JS.parseInt10 dayStr)).
Proof.
  destruct (DateTs.dateRegex_match s) as [[[yearStr monthStr] dayStr] |] eqn:Hm.
  - split.
    + intros Hnone. right. exists yearStr, monthStr, dayStr.
      split; [reflexivity |].
      destruct (Z.lt_ge_cases (JS.parseInt10 yearStr) 100) as [| Hy]; [by left |].
      right. intros Hv.
      assert (H : DateTs.parseDate s
                  = Some (JS.MakeDay (JS.parseInt10 yearStr)
                            (JS.parseInt10 monthStr - 1) (JS.parseInt10 dayStr)
                          * JS.msPerDay))
        by (by apply (parseDate_matched _ _ _ _ _ Hm)).
      congruence.
    + intros [| (ys & ms & ds & [= <- <- <-] & Hbad)]; [discriminate |].
      destruct (DateTs.parseDate s) as [t |] eqn:Hp; [| reflexivity].
      apply (parseDate_matched _ _ _ _ t Hm) in Hp as (Hy & Hv & _).
      destruct Hbad; [lia | done].
  - split; [by left |]. intros _. unfold DateTs.parseDate. by rewrite Hm.
Qed.

(** The impossible dates and the malformed strings that the specification
    lists are rejected, and real dates are accepted. *)
Example parseDate_examples :
  DateTs.isValidDate "2026-02-30" = false
  /\ DateTs.isValidDate "2026-13-01" = false
  /\ DateTs.isValidDate "2025-02-29" = false
  /\ DateTs.isValidDate "2026-2-15" = false
  /\ DateTs.isValidDate "2026/02/15" = false
  /\ DateTs.isValidDate " 2026-02-15 " = false
  /\ DateTs.isValidDate "" = false
  /\ DateTs.isValidDate "2024-02-29" = true
  /\ DateTs.parseDate "2026-12-25" = Some christmas2026.
Proof. repeat split; reflexivity. Qed.

(** C2 fails at ["0050-06-15"]: the string matches the pattern and 15 June
    of the year 50 is a date of the Gregorian calendar, yet [parseDate]
    returns [null], because [Date.UTC] reads the year 50 as 1950 and the
    comparison of the years then fails. *)
Theorem parseDate_rejects_year_below_100 :
  DateTs.dateRegex_match "0050-06-15" = Some ("0050", "06", "15")%string
  /\ Gregorian.valid (JS.parseInt10 "0050") (JS.parseInt10 "06") (JS.parseInt10 "15")
  /\ JS.Date_UTC 50 5 15 = JS.Date_UTC 1950 5 15
  /\ DateTs.parseDate "0050-06-15" = None
  /\ DateTs.isValidDate "0050-06-15" = false.
Proof.
  split; [reflexivity |].
  split; [| repeat split; reflexivity].
  vm_compute. repeat split; discriminate.
Qed.

(** C1 fails in two ways.  On a host five hours behind UTC the accepted
    string ["2026-01-01"] is formatted as the previous day, because
    [formatDate] reads the Date with the local-time getters while
    [parseDate] builds it in UTC ([formatDate_parseDate_west] has the
    general case).  On a UTC host the accepted string ["0100-01-01"] comes
    back without its leading zero, because the year is not padded
    ([formatDate_parseDate_year_below_1000] has the general case). *)
Theorem formatDate_parseDate_differs :
  DateTs.isValidDate "2026-01-01" = true
  /\ DateTs.formatDate UTC_minus_5 <$> DateTs.parseDate "2026-01-01"
     = Some "2025-12-31"%string
  /\ DateTs.isValidDate "0100-01-01" = true
  /\ DateTs.formatDate UTC_host <$> DateTs.parseDate "0100-01-01"
     = Some "100-01-01"%string.
Proof. repeat split; reflexivity. Qed.

Close Scope Z_scope.

(* ===================================================================== *)
(** * Diocese registry and response normalizer                            *)
(* ===================================================================== *)

Lemma own_property_unsupported code :
  isValidDiocese code = false -> JS.own_property DIOCESE_TO_COUNTRY code = None.
Proof.
  unfold isValidDiocese, SUPPORTED_DIOCESES, DIOCESE_TO_COUNTRY.
  cbn [existsb JS.own_property].
  repeat (destruct (String.eqb code _); [discriminate |]).
  reflexivity.
Qed.

Lemma ObjectPrototype_Get_None p :
  p ∉ JS.ObjectPrototype_properties -> JS.ObjectPrototype_Get p = None.
Proof.
  intros Hp. unfold JS.ObjectPrototype_Get.
  destruct (existsb (String.eqb p) JS.ObjectPrototype_properties) eqn:E;
    [| reflexivity].
  exfalso. apply Hp.
  apply existsb_exists in E as (q & Hq & Heq).
  apply String.eqb_eq in Heq. subst q. by apply list_elem_of_In.
Qed.

Lemma isValidDiocese_false code :
  code ∉ SUPPORTED_DIOCESES -> isValidDiocese code = false.
Proof.
  intros Hc. unfold isValidDiocese.
  destruct (existsb (String.eqb code) SUPPORTED_DIOCESES) eqn:E; [| reflexivity].
  exfalso. apply Hc.
  apply existsb_exists in E as (q & Hq & Heq).
  apply String.eqb_eq in Heq. subst q. by apply list_elem_of_In.
Qed.

Lemma isValidDiocese_true code :
  isValidDiocese code = true -> exists c, dioceseToCountry code = JS.Str c.
Proof.
  unfold isValidDiocese. intros E.
  apply existsb_exists in E as (q & Hq & Heq).
  apply String.eqb_eq in Heq. subst q.
  cbn in Hq.
  repeat (destruct Hq as [<- | Hq]; [eexists; reflexivity |]).
  destruct Hq.
Qed.

(** C7 fails in the code: ["constructor"] is outside the supported set, and
    the lookup [DIOCESE_TO_COUNTRY["constructor"]] finds the property that
    the object literal inherits from [Object.prototype]; it is truthy, so
    [dioceseToCountry] returns that object and not the input string, which
    the fallback [|| diocese], the declared return type [string] and the
    repository's test of the fallback all intend. *)
Lemma dioceseToCountry_constructor :
  isValidDiocese "constructor" = false
  /\ dioceseToCountry "constructor" = JS.Obj JS.ObjectConstructor
  /\ dioceseToCountry "constructor" <> JS.Str "constructor".
Proof. repeat split. discriminate. Qed.

(** Where the table and the fallback do work: [dioceseToCountry] maps
    ['united-states'] to ['unitedStates'] and each of ['england'],
    ['italy'], ['france'], ['spain'], ['germany'] to itself; a code outside
    the supported set is returned unchanged unless it is the name of a
    property inherited from [Object.prototype]. *)
Theorem dioceseToCountry_table_and_fallback :
  dioceseToCountry "united-states" = JS.Str "unitedStates"
  /\ dioceseToCountry "england" = JS.Str "england"
  /\ dioceseToCountry "italy" = JS.Str "italy"
  /\ dioceseToCountry "france" = JS.Str "france"
  /\ dioceseToCountry "spain" = JS.Str "spain"
  /\ dioceseToCountry "germany" = JS.Str "germany"
  /\ forall code : string,
       code ∉ SUPPORTED_DIOCESES ->
       code ∉ JS.ObjectPrototype_properties ->
       dioceseToCountry code = JS.Str code.
Proof.
  repeat (split; [reflexivity |]).
  intros code Hsup Hproto.
  unfold dioceseToCountry, JS.Get.
  rewrite own_property_unsupported by (by apply isValidDiocese_false).
  by rewrite ObjectPrototype_Get_None.
Qed.

Lemma dioceseToCountry_fallback_witness :
  dioceseToCountry "mexico" = JS.Str "mexico".
Proof.
  apply dioceseToCountry_table_and_fallback.
  - intros H. repeat (apply elem_of_cons in H as [H | H]; [discriminate |]).
    by apply elem_of_nil in H.
  - intros H. repeat (apply elem_of_cons in H as [H | H]; [discriminate |]).
    by apply elem_of_nil in H.
Defined.

(** C8: in the response built by [toLiturgicalDayResponse], [isSolemnity]
    holds iff the rank is ["SOLEMNITY"], [isFeast] iff it is ["FEAST"] and
    [isOptional] iff it is ["OPT_MEMORIAL"]; the rank is the record's type
    string, at most one flag is true, and for any other rank all three are
    false.  The function is total: no rank raises an error. *)
Theorem rank_flags (toLowerCase : string -> string) (day : RomcalDay.t) :
  let r := toLiturgicalDayResponse toLowerCase day in
  LiturgicalDayResponse.rank r = RomcalDay.type day
  /\ (LiturgicalDayResponse.isSolemnity r = true
      <-> LiturgicalDayResponse.rank r = "SOLEMNITY")
  /\ (LiturgicalDayResponse.isFeast r = true
      <-> LiturgicalDayResponse.rank r = "FEAST")
  /\ (LiturgicalDayResponse.isOptional r = true
      <-> LiturgicalDayResponse.rank r = "OPT_MEMORIAL")
  /\ (Nat.b2n (LiturgicalDayResponse.isSolemnity r)
      + Nat.b2n (LiturgicalDayResponse.isFeast r)
      + Nat.b2n (LiturgicalDayResponse.isOptional r) <= 1)%nat
  /\ (LiturgicalDayResponse.rank r ∉ ["SOLEMNITY"; "FEAST"; "OPT_MEMORIAL"] ->
      LiturgicalDayResponse.isSolemnity r = false
      /\ LiturgicalDayResponse.isFeast r = false
      /\ LiturgicalDayResponse.isOptional r = false).
Proof.
  cbn -[String.eqb].
  assert (Hor : JS.or_string (RomcalDay.type day) "" = RomcalDay.type day)
    by (by destruct (RomcalDay.type day)).
  rewrite Hor. generalize (RomcalDay.type day) as ty. intros ty.
  split; [reflexivity |].
  split; [apply String.eqb_eq |].
  split; [apply String.eqb_eq |].
  split; [apply String.eqb_eq |].
  split.
  - destruct (String.eqb_spec ty "SOLEMNITY") as [-> | _]; [reflexivity |].
    destruct (String.eqb_spec ty "FEAST") as [-> | _]; [reflexivity |].
    destruct (String.eqb ty "OPT_MEMORIAL"); cbn; lia.
  - intros Hrank.
    repeat split; apply String.eqb_neq; intros ->; apply Hrank; set_solver.
Qed.

Lemma rank_flags_witness :
  let day := RomcalDay.mk (MomentString "2026-03-19T00:00:00.000Z") "MEMORIAL"
               "Saint Joseph" "josephHusbandOfMary" "u"
               (Data.mk None None None) in
  LiturgicalDayResponse.isSolemnity (toLiturgicalDayResponse sampleToLowerCase day) = false
  /\ LiturgicalDayResponse.isFeast (toLiturgicalDayResponse sampleToLowerCase day) = false
  /\ LiturgicalDayResponse.isOptional (toLiturgicalDayResponse sampleToLowerCase day) = false.
Proof.
  intros day. apply (rank_flags sampleToLowerCase day).
  intros H. repeat (apply elem_of_cons in H as [H | H]; [discriminate |]).
  by apply elem_of_nil in H.
Defined.

(** C9: whatever the host's [toLowerCase] is, the response's color list
    is built from the raw color field by cases.  A single value gives the
    one-element list of its identifier passed through [toLowerCase].  A
    list gives the list of the identifiers, each passed through
    [toLowerCase], in the engine's order: the two lists have the same
    length and the element at every index comes from the raw element at
    that index.  An absent field, or an absent [data.meta], gives the
    empty list. *)
Theorem color_cases (toLowerCase : string -> string) (day : RomcalDay.t) :
  let color :=
    LiturgicalDayResponse.color (toLiturgicalDayResponse toLowerCase day) in
  match rawColor day with
  | Some (ColorSingle c) => color = [toLowerCase (KeyValue.key c)]
  | Some (ColorArray cs) =>
      color = map (fun c => toLowerCase (KeyValue.key c)) cs
      /\ length color = length cs
      /\ forall i : nat,
           color !! i = (fun c => toLowerCase (KeyValue.key c)) <$> cs !! i
  | None => color = []
  end.
Proof.
  unfold rawColor. cbn.
  destruct (Data.meta (RomcalDay.data day) ≫= Meta.liturgicalColor)
    as [[c | cs] |]; try reflexivity.
  split; [reflexivity |].
  split; [apply length_map |].
  intros i. apply list_lookup_fmap.
Qed.

(** The three cases on records of the engine, with a [toLowerCase] that
    lower-cases ASCII: ["WHITE"] becomes [["white"]], [["RED"]] becomes
    [["red"]], and a record without [data.meta] has no color. *)
Lemma color_cases_witness :
  LiturgicalDayResponse.color (toLiturgicalDayResponse sampleToLowerCase christmas)
  = ["white"]
  /\ LiturgicalDayResponse.color (toLiturgicalDayResponse sampleToLowerCase stephen)
     = ["red"]
  /\ LiturgicalDayResponse.color (toLiturgicalDayResponse sampleToLowerCase undatedDay)
     = [].
Proof.
  split; [| split].
  - exact (color_cases sampleToLowerCase christmas).
  - exact (proj1 (color_cases sampleToLowerCase stephen)).
  - exact (color_cases sampleToLowerCase undatedDay).
Defined.

(* ===================================================================== *)
(** * Calendar cache                                                      *)
(* ===================================================================== *)

Lemma buildDateMap_foldl calendar : buildDateMap calendar = foldl addDay ∅ calendar.
Proof. reflexivity. Qed.

Lemma addDay_lookup dateMap day k :
  addDay dateMap day !! k =
  if decide (dateStrOf day = k ∧ k ≠ "") then Some day else dateMap !! k.
Proof.
  unfold addDay. destruct (dateStrOf day) as [| c s] eqn:E.
  - destruct (decide (_ ∧ _)) as [[<- H] | H]; done.
  - rewrite lookup_insert.
    destruct (decide (String c s = k)) as [H1 | H1];
      destruct (decide (_ ∧ _)) as [H2 | H2]; try done.
    + destruct H2. by subst k.
    + by destruct H2.
Qed.

Lemma foldl_addDay_lookup (calendar : list RomcalDay.t) dateMap k :
  foldl addDay dateMap calendar !! k =
  match last (filter (fun day => dateStrOf day = k ∧ k ≠ "") calendar) with
  | Some day => Some day
  | None => dateMap !! k
  end.
Proof.
  revert dateMap. induction calendar as [| day calendar IH]; intros dateMap.
  - reflexivity.
  - cbn [foldl]. rewrite IH, addDay_lookup, filter_cons.
    destruct (decide (dateStrOf day = k ∧ k ≠ "")) as [H | H].
    + destruct (filter _ calendar) as [| d l] eqn:E; [reflexivity |].
      change (last (day :: d :: l)) with (last (d :: l)).
      destruct (last (d :: l)) eqn:EL; [reflexivity |].
      by apply last_None in EL.
    + reflexivity.
Qed.

Lemma filter_date_nonempty (calendar : list RomcalDay.t) k :
  k ≠ "" ->
  filter (fun day => dateStrOf day = k ∧ k ≠ "") calendar
  = filter (fun day => dateStrOf day = k) calendar.
Proof.
  intros Hk. apply list_filter_iff. intros day. tauto.
Qed.

Lemma buildDateMap_lookup (calendar : list RomcalDay.t) k :
  buildDateMap calendar !! k =
  if decide (k = "") then None
  else last (filter (fun day => dateStrOf day = k) calendar).
Proof.
  rewrite buildDateMap_foldl, foldl_addDay_lookup, lookup_empty.
  case_decide as Hk.
  - subst k.
    destruct (last _) as [day |] eqn:E; [| reflexivity].
    apply last_Some_elem_of, list_elem_of_filter in E as [[_ H] _]. done.
  - rewrite filter_date_nonempty by done. by destruct (last _).
Qed.

Lemma buildDateMap_Some calendar k day :
  buildDateMap calendar !! k = Some day ->
  day ∈ calendar ∧ dateStrOf day = k ∧ k ≠ "".
Proof.
  rewrite buildDateMap_lookup. case_decide as Hk; [done |].
  intros E. apply last_Some_elem_of, list_elem_of_filter in E as [? ?]. done.
Qed.

Lemma buildDateMap_is_Some calendar day :
  day ∈ calendar -> dateStrOf day ≠ "" ->
  is_Some (buildDateMap calendar !! dateStrOf day).
Proof.
  intros Hin Hne. rewrite buildDateMap_lookup.
  case_decide as Hd; [done |]. clear Hd.
  destruct (filter (fun d => dateStrOf d = dateStrOf day) calendar) as [| d l] eqn:E.
  - assert (H : day ∈ filter (fun d => dateStrOf d = dateStrOf day) calendar)
      by (by apply list_elem_of_filter).
    rewrite E in H. by apply elem_of_nil in H.
  - apply last_is_Some. done.
Qed.

(** ** getCalendar, case by case *)

Section CacheLemmas.
Variable calendarFor : Z -> JS.Value -> Completion (list RomcalDay.t).

Lemma getCalendar_hit year country st dateMap :
  calendarCache st !! cacheKey year country = Some dateMap ->
  getCalendar calendarFor year country st = (Normal dateMap, st).
Proof.
  intros H. unfold getCalendar, bind, cache_lookup, ret. by rewrite H.
Qed.

Lemma getCalendar_miss year country st calendar :
  calendarCache st !! cacheKey year country = None ->
  calendarFor year country = Normal calendar ->
  getCalendar calendarFor year country st =
  (Normal (buildDateMap calendar),
   mkState (<[cacheKey year country := buildDateMap calendar]> (calendarCache st))
           (engineCalls st ++ [(year, country)]) (console st)).
Proof.
  intros H E.
  unfold getCalendar, bind, cache_lookup, call_calendarFor, cache_set, ret.
  rewrite H, E. reflexivity.
Qed.

Lemma getCalendar_throw year country st e :
  calendarCache st !! cacheKey year country = None ->
  calendarFor year country = Throw e ->
  getCalendar calendarFor year country st =
  (Throw e,
   mkState (calendarCache st) (engineCalls st ++ [(year, country)]) (console st)).
Proof.
  intros H E.
  unfold getCalendar, bind, cache_lookup, call_calendarFor, cache_set, ret.
  rewrite H, E. reflexivity.
Qed.
End CacheLemmas.

(** C10: on a miss, [getCalendar] stores and returns the mapping built from
    the engine's list; that mapping binds a date string to the last record
    of the list whose extracted date string equals it, and binds nothing to
    the empty date string, so a record whose extracted date string is empty
    is bound nowhere. *)
Theorem getCalendar_builds_last_wins
    (calendarFor : Z -> JS.Value -> Completion (list RomcalDay.t))
    (year : Z) (country : JS.Value) (st : State) (calendar : list RomcalDay.t) :
  calendarCache st !! cacheKey year country = None ->
  calendarFor year country = Normal calendar ->
  let res := getCalendar calendarFor year country st in
  let dateMap := buildDateMap calendar in
  fst res = Normal dateMap
  /\ calendarCache (snd res) !! cacheKey year country = Some dateMap
  /\ (forall dateStr, dateStr ≠ "" ->
        dateMap !! dateStr
        = last (filter (fun day => dateStrOf day = dateStr) calendar))
  /\ dateMap !! "" = None
  /\ (forall dateStr day, dateMap !! dateStr = Some day -> dateStrOf day ≠ "").
Proof.
  intros Hmiss Hengine res dateMap. subst res dateMap.
  rewrite (getCalendar_miss _ _ _ _ _ Hmiss Hengine). cbn [fst snd calendarCache].
  split; [reflexivity |].
  split; [apply lookup_insert_eq |].
  split; [| split].
  - intros k Hk. rewrite buildDateMap_lookup. by case_decide.
  - by rewrite buildDateMap_lookup.
  - intros k day H. apply buildDateMap_Some in H as (_ & -> & H). done.
Qed.

(* ===================================================================== *)
(** * Cache invariant                                                     *)
(* ===================================================================== *)

Section Invariant.
Variable LocalTZA : Z -> Z.
Variable calendarFor : Z -> JS.Value -> Completion (list RomcalDay.t).
Variable toLowerCase : string -> string.

Lemma getCalendar_cases year country st :
  (exists dateMap,
      calendarCache st !! cacheKey year country = Some dateMap
      /\ getCalendar calendarFor year country st = (Normal dateMap, st))
  \/ (exists calendar,
      calendarCache st !! cacheKey year country = None
      /\ calendarFor year country = Normal calendar
      /\ getCalendar calendarFor year country st =
         (Normal (buildDateMap calendar),
          mkState (<[cacheKey year country := buildDateMap calendar]> (calendarCache st))
                  (engineCalls st ++ [(year, country)]) (console st)))
  \/ (exists e,
      calendarCache st !! cacheKey year country = None
      /\ calendarFor year country = Throw e
      /\ getCalendar calendarFor year country st =
         (Throw e,
          mkState (calendarCache st) (engineCalls st ++ [(year, country)])
                  (console st))).
Proof.
  destruct (calendarCache st !! cacheKey year country) as [dateMap |] eqn:Hc.
  - left. exists dateMap. split; [reflexivity |]. by apply getCalendar_hit.
  - destruct (calendarFor year country) as [calendar | e] eqn:He.
    + right. left. exists calendar. repeat split; try done.
      by apply getCalendar_miss.
    + right. right. exists e. repeat split; try done.
      by apply getCalendar_throw.
Qed.

Lemma entries_built_getCalendar year country st :
  entries_built calendarFor st ->
  entries_built calendarFor (snd (getCalendar calendarFor year country st)).
Proof.
  intros Hinv.
  destruct (getCalendar_cases year country st)
    as [(dm & _ & ->) | [(cal & Hc & He & ->) | (e & _ & _ & ->)]];
    cbn [snd]; try exact Hinv.
  intros key dateMap. cbn [calendarCache]. rewrite lookup_insert.
  case_decide as Hk.
  - intros [= <-]. subst key. by exists year, country, cal.
  - apply Hinv.
Qed.

Lemma entries_built_getLiturgicalDay date diocese st :
  entries_built calendarFor st ->
  entries_built calendarFor
    (snd (getLiturgicalDay LocalTZA calendarFor toLowerCase date diocese st)).
Proof.
  intros Hinv. unfold getLiturgicalDay.
  destruct (negb (isValidDiocese (default DEFAULT_DIOCESE diocese)));
    [exact Hinv |].
  unfold try_catch, bind at 1.
  pose proof (entries_built_getCalendar
                (JS.getFullYear LocalTZA date)
                (dioceseToCountry (default DEFAULT_DIOCESE diocese)) st Hinv) as H.
  destruct (getCalendar calendarFor _ _ st) as [[dateMap | e] st'].
  - cbn [snd] in H. by destruct (dateMap !! _).
  - exact H.
Qed.

Lemma entries_built_step st st' :
  step LocalTZA calendarFor toLowerCase st st' ->
  entries_built calendarFor st -> entries_built calendarFor st'.
Proof.
  intros [date diocese s | year country s | message s | s] Hinv.
  - by apply entries_built_getLiturgicalDay.
  - by apply entries_built_getCalendar.
  - exact Hinv.
  - intros key dateMap. cbn. by rewrite lookup_empty.
Qed.

Lemma entries_built_reachable st :
  reachable LocalTZA calendarFor toLowerCase st -> entries_built calendarFor st.
Proof.
  unfold reachable. revert st.
  apply (rtc_ind_r (entries_built calendarFor) initial).
  - intros key dateMap. cbn. by rewrite lookup_empty.
  - intros s1 s2 _ Hstep IH. by eapply entries_built_step.
Qed.
End Invariant.

(** C5, as stated, fails: with an engine that returns a record whose date
    marker is empty, the populated entry has no binding for that record. *)
Lemma undated_record_not_bound :
  ~ (forall st, reachable (fun _ => 0%Z) undatedEngine sampleToLowerCase st ->
                entries_bind_every_record undatedEngine st).
Proof.
  intros Hclaim.
  set (st := snd (getCalendar undatedEngine 2026 (JS.Str "england") initial)).
  assert (Hreach : reachable (fun _ => 0%Z) undatedEngine sampleToLowerCase st).
  { eapply rtc_l; [apply step_getCalendar | apply rtc_refl]. }
  destruct (Hclaim st Hreach (cacheKey 2026 (JS.Str "england")) ∅)
    as (year & country & calendar & _ & Heng & Hbind).
  { reflexivity. }
  injection Heng as <-.
  destruct (Hbind undatedDay) as [d Hd]; [set_solver |].
  by rewrite lookup_empty in Hd.
Qed.

(** C5 (amended): in every reachable state, each key of the cache is either
    absent or bound to the mapping built from the whole list the engine
    returned for that year and country: the entry binds the date string of
    every record of that list whose extracted date string is not empty, and
    it binds nothing but records of that list. *)
Theorem cache_entries_complete
    (LocalTZA : Z -> Z)
    (calendarFor : Z -> JS.Value -> Completion (list RomcalDay.t))
    (toLowerCase : string -> string)
    (st : State) :
  reachable LocalTZA calendarFor toLowerCase st ->
  forall key,
    calendarCache st !! key = None
    \/ exists dateMap year country calendar,
         calendarCache st !! key = Some dateMap
         /\ key = cacheKey year country
         /\ calendarFor year country = Normal calendar
         /\ (forall day, day ∈ calendar -> dateStrOf day ≠ "" ->
                         is_Some (dateMap !! dateStrOf day))
         /\ (forall dateStr day, dateMap !! dateStr = Some day ->
                                 day ∈ calendar /\ dateStrOf day = dateStr).
Proof.
  intros Hreach key.
  destruct (calendarCache st !! key) as [dateMap |] eqn:Hk; [right | by left].
  destruct (entries_built_reachable _ _ _ _ Hreach key dateMap Hk)
    as (year & country & calendar & -> & Heng & ->).
  exists (buildDateMap calendar), year, country, calendar.
  repeat split; try done.
  - intros day Hin Hne. by apply buildDateMap_is_Some.
  - by apply buildDateMap_Some in H as (? & ? & ?).
  - by apply buildDateMap_Some in H as (? & ? & ?).
Qed.

(* ===================================================================== *)
(** * Day resolver                                                        *)
(* ===================================================================== *)

Section ResolverLemmas.
Variable LocalTZA : Z -> Z.
Variable calendarFor : Z -> JS.Value -> Completion (list RomcalDay.t).
Variable toLowerCase : string -> string.

Abbreviation resolve := (getLiturgicalDay LocalTZA calendarFor toLowerCase).

Lemma getLiturgicalDay_invalid date diocese st :
  isValidDiocese (default DEFAULT_DIOCESE diocese) = false ->
  resolve date diocese st = (Normal None, st).
Proof. intros H. unfold getLiturgicalDay. by rewrite H. Qed.

Lemma getLiturgicalDay_valid date diocese st :
  isValidDiocese (default DEFAULT_DIOCESE diocese) = true ->
  resolve date diocese st =
  match getCalendar calendarFor (JS.getFullYear LocalTZA date)
          (dioceseToCountry (default DEFAULT_DIOCESE diocese)) st with
  | (Normal dateMap, st') =>
      (Normal (toLiturgicalDayResponse toLowerCase
                 <$> dateMap !! DateTs.formatDate LocalTZA date), st')
  | (Throw e, st') =>
      (Normal None,
       mkState (calendarCache st') (engineCalls st')
         (console st'
            ++ [resolverMessage (DateTs.formatDate LocalTZA date)
                  (default DEFAULT_DIOCESE diocese) e]))
  end.
Proof.
  intros H. unfold getLiturgicalDay. rewrite H. cbn [negb].
  unfold try_catch, bind at 1.
  destruct (getCalendar calendarFor _ _ st) as [[dateMap | e] st'].
  - by destruct (dateMap !! _).
  - reflexivity.
Qed.

(** Two calls in a row always agree on the outcome. *)
Lemma getLiturgicalDay_twice_equal date diocese st :
  let first := resolve date diocese st in
  fst (resolve date diocese (snd first)) = fst first.
Proof.
  cbn zeta.
  destruct (isValidDiocese (default DEFAULT_DIOCESE diocese)) eqn:Hv.
  - rewrite !getLiturgicalDay_valid by done.
    destruct (getCalendar_cases calendarFor (JS.getFullYear LocalTZA date)
                (dioceseToCountry (default DEFAULT_DIOCESE diocese)) st)
      as [(dm & Hc & E) | [(cal & Hc & He & E) | (e & Hc & He & E)]];
      rewrite E; cbn [fst snd].
    + by rewrite E.
    + erewrite getCalendar_hit; [reflexivity |].
      cbn [calendarCache]. apply lookup_insert_eq.
    + erewrite getCalendar_throw; [reflexivity | exact Hc | exact He].
  - by rewrite !getLiturgicalDay_invalid.
Qed.

(** A call that finds the entry in the cache changes nothing. *)
Lemma getLiturgicalDay_hit date diocese st :
  is_Some (calendarCache st
             !! cacheKey (JS.getFullYear LocalTZA date)
                  (dioceseToCountry (default DEFAULT_DIOCESE diocese))) ->
  snd (resolve date diocese st) = st.
Proof.
  intros [dm Hc].
  destruct (isValidDiocese (default DEFAULT_DIOCESE diocese)) eqn:Hv.
  - rewrite getLiturgicalDay_valid by done.
    by rewrite (getCalendar_hit _ _ _ _ _ Hc).
  - by rewrite getLiturgicalDay_invalid.
Qed.

(** Where the engine returns, the first call leaves an entry behind. *)
Lemma getLiturgicalDay_populates date diocese st calendar :
  isValidDiocese (default DEFAULT_DIOCESE diocese) = true ->
  calendarFor (JS.getFullYear LocalTZA date)
    (dioceseToCountry (default DEFAULT_DIOCESE diocese)) = Normal calendar ->
  is_Some (calendarCache (snd (resolve date diocese st))
             !! cacheKey (JS.getFullYear LocalTZA date)
                  (dioceseToCountry (default DEFAULT_DIOCESE diocese))).
Proof.
  intros Hv He. rewrite getLiturgicalDay_valid by done.
  destruct (getCalendar_cases calendarFor (JS.getFullYear LocalTZA date)
              (dioceseToCountry (default DEFAULT_DIOCESE diocese)) st)
    as [(dm & Hc & E) | [(cal & Hc & He' & E) | (e & Hc & He' & E)]];
    rewrite E; cbn [snd calendarCache].
  - by rewrite Hc.
  - rewrite lookup_insert_eq. done.
  - congruence.
Qed.
End ResolverLemmas.

(** C3, as stated, fails: when the engine fails, the first call stores
    nothing, and the second call invokes the engine again. *)
Lemma failed_call_is_repeated :
  let first := getLiturgicalDay UTC_host failingEngine sampleToLowerCase christmas2026
                 (Some "england") initial in
  let second := getLiturgicalDay UTC_host failingEngine sampleToLowerCase christmas2026
                  (Some "england") (snd first) in
  ~ (fst second = fst first
     /\ engineCalls (snd second) = engineCalls (snd first)).
Proof.
  intros first second [_ H]. vm_compute in H. discriminate.
Qed.

(** C3 (amended): two calls of [getLiturgicalDay] with the same date and
    diocese return equal values.  When the engine does not fail for the
    year and country of the call (more generally, whenever the first call
    leaves an entry for the key in the cache), the second call invokes no
    engine and leaves the whole state as it was; once an entry is in the
    cache, [getCalendar] returns it without calling the engine. *)
Theorem getLiturgicalDay_idempotent
    (LocalTZA : Z -> Z)
    (calendarFor : Z -> JS.Value -> Completion (list RomcalDay.t))
    (toLowerCase : string -> string)
    (date : JS.Date) (diocese : option string) (st : State) :
  let year := JS.getFullYear LocalTZA date in
  let country := dioceseToCountry (default DEFAULT_DIOCESE diocese) in
  let first := getLiturgicalDay LocalTZA calendarFor toLowerCase date diocese st in
  let second := getLiturgicalDay LocalTZA calendarFor toLowerCase date diocese (snd first) in
  fst second = fst first
  /\ ((forall e, calendarFor year country <> Throw e) ->
      snd second = snd first
      /\ engineCalls (snd second) = engineCalls (snd first))
  /\ (is_Some (calendarCache (snd first) !! cacheKey year country) ->
      snd second = snd first)
  /\ (forall year' country' dateMap st',
        calendarCache st' !! cacheKey year' country' = Some dateMap ->
        getCalendar calendarFor year' country' st' = (Normal dateMap, st')).
Proof.
  intros year country first second. subst first second.
  split; [apply getLiturgicalDay_twice_equal |].
  split; [| split].
  - intros Hok.
    assert (Hsame : snd (getLiturgicalDay LocalTZA calendarFor toLowerCase date diocese
                           (snd (getLiturgicalDay LocalTZA calendarFor toLowerCase date diocese st)))
                    = snd (getLiturgicalDay LocalTZA calendarFor toLowerCase date diocese st)).
    { destruct (isValidDiocese (default DEFAULT_DIOCESE diocese)) eqn:Hv.
      - destruct (calendarFor year country) as [calendar | e] eqn:He.
        + apply getLiturgicalDay_hit.
          by eapply getLiturgicalDay_populates.
        + by destruct (Hok e).
      - by rewrite !getLiturgicalDay_invalid. }
    by rewrite Hsame.
  - apply getLiturgicalDay_hit.
  - intros year' country' dateMap st'. apply getCalendar_hit.
Qed.

Lemma getLiturgicalDay_idempotent_witness :
  let first := getLiturgicalDay UTC_host sampleEngine sampleToLowerCase christmas2026
                 (Some "england") initial in
  let second := getLiturgicalDay UTC_host sampleEngine sampleToLowerCase christmas2026
                  (Some "england") (snd first) in
  fst first = Normal (Some (toLiturgicalDayResponse sampleToLowerCase christmas))
  /\ snd second = snd first.
Proof.
  split; [reflexivity |].
  destruct (getLiturgicalDay_idempotent UTC_host sampleEngine sampleToLowerCase christmas2026
              (Some "england") initial) as (_ & H & _).
  apply H. intros e. discriminate.
Defined.

(** C4: [getLiturgicalDay] never ends with a thrown error; when the engine
    call throws, the error is caught, reported on the console, and the
    resolver returns [null], leaving the cache as it was. *)
Theorem engine_fault_caught
    (LocalTZA : Z -> Z)
    (calendarFor : Z -> JS.Value -> Completion (list RomcalDay.t))
    (toLowerCase : string -> string)
    (date : JS.Date) (diocese : option string) (st : State) :
  let year := JS.getFullYear LocalTZA date in
  let country := dioceseToCountry (default DEFAULT_DIOCESE diocese) in
  (exists outcome,
      fst (getLiturgicalDay LocalTZA calendarFor toLowerCase date diocese st) = Normal outcome)
  /\ (forall e,
        isValidDiocese (default DEFAULT_DIOCESE diocese) = true ->
        calendarCache st !! cacheKey year country = None ->
        calendarFor year country = Throw e ->
        getLiturgicalDay LocalTZA calendarFor toLowerCase date diocese st =
        (Normal None,
         mkState (calendarCache st) (engineCalls st ++ [(year, country)])
           (console st
              ++ [resolverMessage (DateTs.formatDate LocalTZA date)
                    (default DEFAULT_DIOCESE diocese) e]))).
Proof.
  intros year country. split.
  - destruct (isValidDiocese (default DEFAULT_DIOCESE diocese)) eqn:Hv.
    + rewrite getLiturgicalDay_valid by done.
      destruct (getCalendar calendarFor _ _ st) as [[dateMap | e] st']; eauto.
    + rewrite getLiturgicalDay_invalid by done. eauto.
  - intros e Hv Hc He. subst year country.
    rewrite getLiturgicalDay_valid by done.
    by rewrite (getCalendar_throw _ _ _ _ _ Hc He).
Qed.

Lemma engine_fault_caught_witness :
  fst (getLiturgicalDay UTC_host failingEngine sampleToLowerCase christmas2026 None initial)
  = Normal None.
Proof.
  destruct (engine_fault_caught UTC_host failingEngine sampleToLowerCase christmas2026 None initial)
    as [_ H].
  rewrite (H "engine failure"); reflexivity.
Defined.

(** C6: when the diocese argument is not a supported code,
    [getLiturgicalDay] returns [null] and the state is the one it was
    called in: the cache is neither read nor written and the engine is not
    invoked. *)
Theorem invalid_diocese_rejected
    (LocalTZA : Z -> Z)
    (calendarFor : Z -> JS.Value -> Completion (list RomcalDay.t))
    (toLowerCase : string -> string)
    (date : JS.Date) (diocese : string) (st : State) :
  isValidDiocese diocese = false ->
  getLiturgicalDay LocalTZA calendarFor toLowerCase date (Some diocese) st = (Normal None, st).
Proof. intros H. by apply getLiturgicalDay_invalid. Qed.

Lemma invalid_diocese_rejected_witness :
  getLiturgicalDay UTC_host sampleEngine sampleToLowerCase christmas2026 (Some "mexico") initial
  = (Normal None, initial).
Proof.
  apply (invalid_diocese_rejected UTC_host sampleEngine sampleToLowerCase christmas2026 "mexico").
  reflexivity.
Defined.

Lemma getCalendar_builds_last_wins_witness :
  fst (getCalendar sampleEngine 2026 (JS.Str "england") initial)
  = Normal (buildDateMap [christmas; stephen]).
Proof.
  apply (getCalendar_builds_last_wins sampleEngine 2026 (JS.Str "england")
           initial [christmas; stephen]); reflexivity.
Defined.

Lemma cache_entries_complete_witness :
  let st := snd (getLiturgicalDay UTC_host sampleEngine sampleToLowerCase christmas2026
                   (Some "england") initial) in
  calendarCache st !! "2026-england" = None
  \/ exists dateMap year country calendar,
       calendarCache st !! "2026-england" = Some dateMap
       /\ "2026-england" = cacheKey year country
       /\ sampleEngine year country = Normal calendar
       /\ (forall day, day ∈ calendar -> dateStrOf day ≠ "" ->
                       is_Some (dateMap !! dateStrOf day))
       /\ (forall dateStr day, dateMap !! dateStr = Some day ->
                               day ∈ calendar /\ dateStrOf day = dateStr).
Proof.
  intros st.
  apply (cache_entries_complete UTC_host sampleEngine sampleToLowerCase st).
  eapply rtc_l; [apply step_getLiturgicalDay | apply rtc_refl].
Defined.

(* ===================================================================== *)
(** * Cache keys                                                          *)
(* ===================================================================== *)

Open Scope Z_scope.

Lemma append_nil (t : string) : (EmptyString ++ t)%string = t.
Proof. reflexivity. Qed.

Lemma append_cons c (s t : string) :
  (String c s ++ t)%string = String c (s ++ t)%string.
Proof. reflexivity. Qed.

Ltac sapp := rewrite ?append_cons, ?append_nil.

Lemma append_assoc' (a b c : string) : ((a ++ b) ++ c = a ++ (b ++ c))%string.
Proof. induction a as [| x a IH]; sapp; [reflexivity | by rewrite IH]. Qed.

Lemma digits_of_acc fuel n acc :
  JS.digits_of fuel n acc = (JS.digits_of fuel n EmptyString ++ acc)%string.
Proof.
  revert n acc. induction fuel as [| fuel IH]; intros n acc; [reflexivity |].
  rewrite !digits_of_step. destruct (n <? 10); [reflexivity |].
  rewrite IH, (IH _ (String _ EmptyString)), append_assoc'. reflexivity.
Qed.

Lemma all_digits_app s1 s2 :
  all_digits (s1 ++ s2) = all_digits s1 && all_digits s2.
Proof.
  induction s1 as [| c s1 IH]; sapp; cbn [all_digits]; [reflexivity |].
  by rewrite IH, andb_assoc.
Qed.

Lemma digits_of_all_digits fuel n :
  0 <= n -> all_digits (JS.digits_of fuel n EmptyString) = true.
Proof.
  revert n. induction fuel as [| fuel IH]; intros n Hn; [reflexivity |].
  rewrite digits_of_step.
  assert (Hd : JS.is_digit (JS.digit_to_ascii (n mod 10)) = true)
    by (apply digit_to_ascii_spec; zdiv).
  destruct (n <? 10).
  - cbn [all_digits]. by rewrite Hd.
  - rewrite digits_of_acc, all_digits_app, IH by zdiv. cbn [all_digits andb].
    by rewrite Hd.
Qed.

Lemma parseInt_from_app s rest a :
  all_digits s = true ->
  JS.parseInt_from (s ++ rest) a = JS.parseInt_from rest (JS.parseInt_from s a).
Proof.
  revert a. induction s as [| c s IH]; intros a Hs; [reflexivity |].
  cbn in Hs. apply andb_true_iff in Hs as [Hc Hs].
  sapp. cbn [JS.parseInt_from]. rewrite Hc. by apply IH.
Qed.

Lemma skip_digits_app s c rest :
  all_digits s = true -> JS.is_digit c = false ->
  skip_digits (s ++ String c rest) = String c rest.
Proof.
  intros Hs Hc. induction s as [| x s IH]; sapp; cbn [skip_digits].
  - by rewrite Hc.
  - cbn in Hs. apply andb_true_iff in Hs as [Hx Hs]. rewrite Hx. by apply IH.
Qed.

(** Reading back the digits that [digits_of] wrote. *)
Lemma parseInt_digits_of fuel n :
  0 <= n < 2 ^ Z.of_nat fuel ->
  JS.parseInt_from (JS.digits_of fuel n EmptyString) 0 = n.
Proof.
  revert n. induction fuel as [| fuel IH]; intros n Hn.
  - change (2 ^ Z.of_nat 0) with 1 in Hn. cbn. lia.
  - rewrite digits_of_step.
    destruct (digit_to_ascii_spec (n mod 10)) as [Hd Hv]; [zdiv |].
    destruct (Z.ltb_spec n 10) as [Hlt | Hge].
    + cbn [JS.parseInt_from]. rewrite Hd, Hv. zdiv.
    + rewrite digits_of_acc, parseInt_from_app by (apply digits_of_all_digits; zdiv).
      rewrite IH.
      * cbn [JS.parseInt_from]. rewrite Hd, Hv. zdiv.
      * rewrite Nat2Z.inj_succ, Z.pow_succ_r in Hn by lia. zdiv.
Qed.

Lemma digits_of_nonempty fuel n acc : JS.digits_of (S fuel) n acc <> EmptyString.
Proof.
  rewrite digits_of_step. destruct (n <? 10); [discriminate |].
  rewrite digits_of_acc. destruct (JS.digits_of fuel _ _); discriminate.
Qed.

Lemma log2_fuel_enough n :
  0 <= n -> 0 <= n < 2 ^ Z.of_nat (S (Z.to_nat (Z.log2 n))).
Proof.
  intros Hn. split; [done |].
  pose proof (Z.log2_nonneg n).
  rewrite Nat2Z.inj_succ, Z2Nat.id by lia.
  destruct (Z.eq_dec n 0) as [-> | Hne]; [by vm_compute |].
  apply Z.log2_spec. lia.
Qed.

Lemma decimal_spec n :
  0 <= n ->
  all_digits (decimal n) = true /\ decimal n <> EmptyString
  /\ JS.parseInt_from (decimal n) 0 = n.
Proof.
  intros Hn. unfold decimal. split; [by apply digits_of_all_digits |].
  split; [apply digits_of_nonempty |].
  apply parseInt_digits_of. by apply log2_fuel_enough.
Qed.

Lemma Number_toString_cases n :
  (0 <= n /\ JS.Number_toString n = decimal n)
  \/ (n < 0 /\ JS.Number_toString n = String "-" (decimal (- n))).
Proof.
  unfold JS.Number_toString, decimal.
  destruct (Z.ltb_spec n 0); [right | left]; split; (lia || reflexivity).
Qed.

Lemma decimal_hyphen_inj n1 n2 r1 r2 :
  0 <= n1 -> 0 <= n2 ->
  (decimal n1 ++ String "-" r1 = decimal n2 ++ String "-" r2)%string ->
  n1 = n2 /\ r1 = r2.
Proof.
  intros H1 H2 Heq.
  destruct (decimal_spec n1 H1) as (Hd1 & _ & Hp1).
  destruct (decimal_spec n2 H2) as (Hd2 & _ & Hp2).
  split.
  - apply (f_equal (fun s => JS.parseInt_from s 0)) in Heq.
    rewrite !parseInt_from_app in Heq by done. cbn [JS.parseInt_from] in Heq.
    change (JS.is_digit "-") with false in Heq. congruence.
  - apply (f_equal skip_digits) in Heq.
    rewrite !skip_digits_app in Heq by done. congruence.
Qed.

Lemma decimal_first n :
  0 <= n -> exists c s, decimal n = String c s /\ JS.is_digit c = true.
Proof.
  intros Hn. destruct (decimal_spec n Hn) as (Hd & Hne & _).
  destruct (decimal n) as [| c s]; [done |].
  cbn in Hd. apply andb_true_iff in Hd as [Hc _]. by exists c, s.
Qed.

(** [`${year}-${country}`] determines the year and the text of the
    country. *)
Lemma cacheKey_inj y1 v1 y2 v2 :
  cacheKey y1 v1 = cacheKey y2 v2 ->
  y1 = y2 /\ JS.ToString v1 = JS.ToString v2.
Proof.
  unfold cacheKey. intros Heq.
  change ("-" ++ JS.ToString v1)%string with (String "-" (JS.ToString v1)) in Heq.
  change ("-" ++ JS.ToString v2)%string with (String "-" (JS.ToString v2)) in Heq.
  destruct (Number_toString_cases y1) as [[H1 E1] | [H1 E1]];
    destruct (Number_toString_cases y2) as [[H2 E2] | [H2 E2]];
    rewrite E1, E2 in Heq.
  - by apply decimal_hyphen_inj in Heq.
  - destruct (decimal_first y1 H1) as (c & s & Ec & Hc). rewrite Ec in Heq.
    rewrite !append_cons in Heq. injection Heq as -> _. discriminate.
  - destruct (decimal_first y2 H2) as (c & s & Ec & Hc). rewrite Ec in Heq.
    rewrite !append_cons in Heq. injection Heq as <- _. discriminate.
  - rewrite !append_cons in Heq. injection Heq as Heq.
    apply decimal_hyphen_inj in Heq as [? ?]; [| lia | lia]. split; [lia | done].
Qed.

Close Scope Z_scope.

Lemma isValidDiocese_elem code :
  isValidDiocese code = true <-> code ∈ SUPPORTED_DIOCESES.
Proof.
  unfold isValidDiocese. rewrite existsb_exists. split.
  - intros (q & Hq & Heq). apply String.eqb_eq in Heq. subst q.
    by apply list_elem_of_In.
  - intros H. exists code. split; [by apply list_elem_of_In | apply String.eqb_refl].
Qed.

(** The country of a supported diocese: one of six strings. *)
Lemma dioceseToCountry_supported code :
  isValidDiocese code = true ->
  exists c, dioceseToCountry code = JS.Str c
            /\ c ∈ ["unitedStates"; "england"; "italy"; "france"; "spain"; "germany"]%string.
Proof.
  intros H. apply isValidDiocese_elem in H.
  unfold SUPPORTED_DIOCESES in H.
  repeat (apply elem_of_cons in H as [-> | H];
          [eexists; split; [reflexivity | set_solver] |]).
  by apply elem_of_nil in H.
Qed.

Lemma dioceseToCountry_inj code1 code2 :
  isValidDiocese code1 = true -> isValidDiocese code2 = true ->
  dioceseToCountry code1 = dioceseToCountry code2 -> code1 = code2.
Proof.
  intros H1 H2. apply isValidDiocese_elem in H1, H2.
  unfold SUPPORTED_DIOCESES in H1, H2.
  repeat (apply elem_of_cons in H1 as [-> | H1]);
    try (by apply elem_of_nil in H1);
    repeat (apply elem_of_cons in H2 as [-> | H2]);
    try (by apply elem_of_nil in H2);
    first [reflexivity | (intros Heq; vm_compute in Heq; discriminate Heq)].
Qed.

(** No built-in object prints as the country of a supported diocese. *)
Lemma ToString_country v c :
  c ∈ ["unitedStates"; "england"; "italy"; "france"; "spain"; "germany"]%string ->
  JS.ToString v = c -> v = JS.Str c.
Proof.
  intros Hc Hv. destruct v as [s | o]; [cbn in Hv; by subst |].
  exfalso.
  destruct o as [| | name]; cbn [JS.ToString] in Hv.
  - repeat (apply elem_of_cons in Hc as [-> | Hc]; [discriminate |]).
    by apply elem_of_nil in Hc.
  - repeat (apply elem_of_cons in Hc as [-> | Hc]; [discriminate |]).
    by apply elem_of_nil in Hc.
  - rewrite !append_cons in Hv.
    repeat (apply elem_of_cons in Hc as [-> | Hc]; [discriminate |]).
    by apply elem_of_nil in Hc.
Qed.

Lemma cacheKey_supported_inj y1 code1 y2 v2 :
  isValidDiocese code1 = true ->
  cacheKey y1 (dioceseToCountry code1) = cacheKey y2 v2 ->
  y1 = y2 /\ v2 = dioceseToCountry code1.
Proof.
  intros H1 Heq.
  destruct (dioceseToCountry_supported code1 H1) as (c & Ec & Hc).
  rewrite Ec in *. apply cacheKey_inj in Heq as [-> Hs].
  split; [reflexivity |]. by apply ToString_country.
Qed.

(* ===================================================================== *)
(** * The resolver in reachable states                                    *)
(* ===================================================================== *)

Section ResolverFacts.
Variable LocalTZA : Z -> Z.
Variable calendarFor : Z -> JS.Value -> Completion (list RomcalDay.t).
Variable toLowerCase : string -> string.

Abbreviation resolve := (getLiturgicalDay LocalTZA calendarFor toLowerCase).

(** The state after a call, case by case. *)
Lemma getLiturgicalDay_state date diocese st :
  let year := JS.getFullYear LocalTZA date in
  let country := dioceseToCountry (default DEFAULT_DIOCESE diocese) in
  let st' := snd (resolve date diocese st) in
  (st' = st
   /\ (isValidDiocese (default DEFAULT_DIOCESE diocese) = false
       \/ is_Some (calendarCache st !! cacheKey year country)))
  \/ (isValidDiocese (default DEFAULT_DIOCESE diocese) = true
      /\ calendarCache st !! cacheKey year country = None
      /\ engineCalls st' = engineCalls st ++ [(year, country)]
      /\ ((exists calendar,
              calendarFor year country = Normal calendar
              /\ calendarCache st'
                 = <[cacheKey year country := buildDateMap calendar]> (calendarCache st)
              /\ console st' = console st)
          \/ (exists e,
                 calendarFor year country = Throw e
                 /\ calendarCache st' = calendarCache st
                 /\ console st'
                    = console st
                        ++ [resolverMessage (DateTs.formatDate LocalTZA date)
                              (default DEFAULT_DIOCESE diocese) e]))).
Proof.
  intros year country st'. subst year country st'.
  destruct (isValidDiocese (default DEFAULT_DIOCESE diocese)) eqn:Hv.
  - rewrite getLiturgicalDay_valid by done.
    destruct (getCalendar_cases calendarFor (JS.getFullYear LocalTZA date)
                (dioceseToCountry (default DEFAULT_DIOCESE diocese)) st)
      as [(dm & Hc & E) | [(cal & Hc & He & E) | (e & Hc & He & E)]];
      rewrite E; cbn [snd].
    + left. split; [reflexivity |]. right. by rewrite Hc.
    + right. repeat split; try done. left. by exists cal.
    + right. repeat split; try done. right. by exists e.
  - rewrite getLiturgicalDay_invalid by done. left. split; [reflexivity | by left].
Qed.

Lemma reachable_getLiturgicalDay date diocese st :
  reachable LocalTZA calendarFor toLowerCase st ->
  reachable LocalTZA calendarFor toLowerCase (snd (resolve date diocese st)).
Proof.
  intros H. eapply rtc_r; [exact H | apply step_getLiturgicalDay].
Qed.

(** In a reachable state, what the cache holds for the key of a supported
    diocese is what the engine returns for that year and country. *)
Lemma cached_is_engine year code st dateMap :
  reachable LocalTZA calendarFor toLowerCase st ->
  isValidDiocese code = true ->
  calendarCache st !! cacheKey year (dioceseToCountry code) = Some dateMap ->
  exists calendar,
    calendarFor year (dioceseToCountry code) = Normal calendar
    /\ dateMap = buildDateMap calendar.
Proof.
  intros Hreach Hv Hc.
  destruct (entries_built_reachable _ _ _ _ Hreach _ _ Hc)
    as (year' & country' & calendar & Hkey & Heng & ->).
  apply cacheKey_supported_inj in Hkey as [-> ->]; [| done].
  by exists calendar.
Qed.

(** The value a call returns in a reachable state. *)
Lemma getLiturgicalDay_value date diocese st :
  reachable LocalTZA calendarFor toLowerCase st ->
  isValidDiocese (default DEFAULT_DIOCESE diocese) = true ->
  fst (resolve date diocese st) =
  Normal
    match calendarFor (JS.getFullYear LocalTZA date)
            (dioceseToCountry (default DEFAULT_DIOCESE diocese)) with
    | Normal calendar =>
        toLiturgicalDayResponse toLowerCase
          <$> buildDateMap calendar !! DateTs.formatDate LocalTZA date
    | Throw _ => None
    end.
Proof.
  intros Hreach Hv. rewrite getLiturgicalDay_valid by done.
  destruct (getCalendar_cases calendarFor (JS.getFullYear LocalTZA date)
              (dioceseToCountry (default DEFAULT_DIOCESE diocese)) st)
    as [(dm & Hc & E) | [(cal & Hc & He & E) | (e & Hc & He & E)]];
    rewrite E; cbn [fst].
  - destruct (cached_is_engine _ _ _ _ Hreach Hv Hc) as (cal & -> & ->).
    reflexivity.
  - by rewrite He.
  - by rewrite He.
Qed.
End ResolverFacts.

Lemma formatDate_nonempty LocalTZA t : DateTs.formatDate LocalTZA t <> EmptyString.
Proof.
  unfold DateTs.formatDate.
  destruct (Number_toString_cases (JS.getFullYear LocalTZA t)) as [[H E] | [H E]];
    rewrite E.
  - destruct (decimal_first _ H) as (c & s & -> & _). by rewrite append_cons.
  - by rewrite append_cons.
Qed.

(** The record a call serves in a reachable state, read off the engine's
    list. *)
Lemma getLiturgicalDay_served LocalTZA calendarFor toLowerCase date diocese st :
  reachable LocalTZA calendarFor toLowerCase st ->
  isValidDiocese (default DEFAULT_DIOCESE diocese) = true ->
  fst (getLiturgicalDay LocalTZA calendarFor toLowerCase date diocese st) =
  Normal
    match calendarFor (JS.getFullYear LocalTZA date)
            (dioceseToCountry (default DEFAULT_DIOCESE diocese)) with
    | Normal calendar =>
        toLiturgicalDayResponse toLowerCase
          <$> last (filter
                      (fun day => dateStrOf day = DateTs.formatDate LocalTZA date)
                      calendar)
    | Throw _ => None
    end.
Proof.
  intros Hreach Hv. rewrite (getLiturgicalDay_value _ _ _ _ _ _ Hreach Hv).
  destruct (calendarFor _ _) as [calendar | e]; [| reflexivity].
  rewrite buildDateMap_lookup.
  case_decide as Hempty; [by apply formatDate_nonempty in Hempty | reflexivity].
Qed.

Lemma getLiturgicalDay_date LocalTZA calendarFor toLowerCase date diocese st response :
  reachable LocalTZA calendarFor toLowerCase st ->
  fst (getLiturgicalDay LocalTZA calendarFor toLowerCase date diocese st)
  = Normal (Some response) ->
  LiturgicalDayResponse.date response = DateTs.formatDate LocalTZA date.
Proof.
  intros Hreach Hres.
  destruct (isValidDiocese (default DEFAULT_DIOCESE diocese)) eqn:Hv;
    [| by rewrite getLiturgicalDay_invalid in Hres].
  rewrite (getLiturgicalDay_value _ _ _ _ _ _ Hreach Hv) in Hres.
  injection Hres as Hres.
  destruct (calendarFor _ _) as [calendar | e]; [| discriminate].
  destruct (buildDateMap calendar !! _) as [day |] eqn:Hday; [| discriminate].
  injection Hres as <-.
  apply buildDateMap_Some in Hday as (_ & Hd & _). exact Hd.
Qed.

(* ===================================================================== *)
(** * Further properties of parsing and formatting                        *)
(* ===================================================================== *)

Open Scope Z_scope.

Lemma midnight_Day day : JS.Day (day * JS.msPerDay) = day.
Proof. unfold JS.Day, JS.msPerDay. zdiv. Qed.

Lemma digit_value_inj c1 c2 :
  JS.is_digit c1 = true -> JS.is_digit c2 = true ->
  JS.digit_value c1 = JS.digit_value c2 -> c1 = c2.
Proof.
  intros H1 H2 Heq.
  rewrite <- (proj2 (is_digit_spec c1 H1)), <- (proj2 (is_digit_spec c2 H2)).
  by rewrite Heq.
Qed.

(** X1: [parseDate] returns a Date exactly for the strings that match the
    pattern with a year of at least 100 and numbers that are a date of the
    Gregorian calendar; the Date is midnight UTC of that date. *)
Theorem parseDate_accepts_iff (s : string) (t : JS.Date) :
  DateTs.parseDate s = Some t <->
  exists yearStr monthStr dayStr,
    DateTs.dateRegex_match s = Some (yearStr, monthStr, dayStr)
    /\ 100 <= JS.parseInt10 yearStr
    /\ Gregorian.valid (JS.parseInt10 yearStr) (JS.parseInt10 monthStr)
         (JS.parseInt10 dayStr)
    /\ t = JS.MakeDay (JS.parseInt10 yearStr) (JS.parseInt10 monthStr - 1)
             (JS.parseInt10 dayStr) * JS.msPerDay.
Proof.
  destruct (DateTs.dateRegex_match s) as [[[yearStr monthStr] dayStr] |] eqn:Hm.
  - rewrite (parseDate_matched _ _ _ _ t Hm). split.
    + intros H. by exists yearStr, monthStr, dayStr.
    + by intros (ys & ms & ds & [= <- <- <-] & H).
  - split.
    + unfold DateTs.parseDate. by rewrite Hm.
    + by intros (ys & ms & ds & H & _).
Qed.

(** X2: [parseDate] is injective: two strings that parse to the same Date
    are the same string. *)
Theorem parseDate_injective (s1 s2 : string) (t : JS.Date) :
  DateTs.parseDate s1 = Some t -> DateTs.parseDate s2 = Some t -> s1 = s2.
Proof.
  intros H1 H2.
  destruct (DateTs.dateRegex_match s1) as [[[ys1 ms1] ds1] |] eqn:Hm1;
    [| unfold DateTs.parseDate in H1; by rewrite Hm1 in H1].
  destruct (DateTs.dateRegex_match s2) as [[[ys2 ms2] ds2] |] eqn:Hm2;
    [| unfold DateTs.parseDate in H2; by rewrite Hm2 in H2].
  apply (parseDate_matched _ _ _ _ t Hm1) in H1 as (_ & Hv1 & Ht1).
  apply (parseDate_matched _ _ _ _ t Hm2) in H2 as (_ & Hv2 & Ht2).
  destruct (civil_of_valid _ _ _ t Hv1) as (Hy1 & Hmo1 & Hd1);
    [rewrite Ht1; apply midnight_Day |].
  destruct (civil_of_valid _ _ _ t Hv2) as (Hy2 & Hmo2 & Hd2);
    [rewrite Ht2; apply midnight_Day |].
  apply dateRegex_match_Some in Hm1
    as (a1 & a2 & a3 & a4 & b1 & b2 & c1 & c2 & HF1 & -> & -> & -> & ->).
  apply dateRegex_match_Some in Hm2
    as (a1' & a2' & a3' & a4' & b1' & b2' & c1' & c2' & HF2 & -> & -> & -> & ->).
  digit_facts.
  rewrite parseInt10_4, !parseInt10_2 in * by assumption.
  assert (a1 = a1') by (apply digit_value_inj; [done | done | lia]).
  assert (a2 = a2') by (apply digit_value_inj; [done | done | lia]).
  assert (a3 = a3') by (apply digit_value_inj; [done | done | lia]).
  assert (a4 = a4') by (apply digit_value_inj; [done | done | lia]).
  assert (b1 = b1') by (apply digit_value_inj; [done | done | lia]).
  assert (b2 = b2') by (apply digit_value_inj; [done | done | lia]).
  assert (c1 = c1') by (apply digit_value_inj; [done | done | lia]).
  assert (c2 = c2') by (apply digit_value_inj; [done | done | lia]).
  by subst.
Qed.

Lemma parseDate_injective_witness :
  ("2026-12-25" = "2026-12-25")%string.
Proof.
  apply (parseDate_injective "2026-12-25" "2026-12-25" christmas2026); reflexivity.
Defined.

(** X3: on a host whose local time is ahead of UTC by less than a day (UTC
    included), [formatDate] gives back every string that [parseDate]
    accepts with a year of at least 1000. *)
Theorem formatDate_inverts_parseDate (LocalTZA : Z -> Z) (s : string) (t : JS.Date) :
  DateTs.parseDate s = Some t ->
  0 <= LocalTZA t < JS.msPerDay ->
  1000 <= JS.getUTCFullYear t ->
  DateTs.formatDate LocalTZA t = s.
Proof. apply formatDate_parseDate. Qed.

Lemma formatDate_inverts_parseDate_witness :
  DateTs.formatDate UTC_host christmas2026 = "2026-12-25"%string.
Proof.
  apply (formatDate_inverts_parseDate UTC_host "2026-12-25" christmas2026).
  - reflexivity.
  - unfold UTC_host, JS.msPerDay. lia.
  - vm_compute. discriminate.
Defined.

Lemma parseDate_formatDate_local (LocalTZA : Z -> Z) (t : JS.Date) :
  1000 <= JS.getFullYear LocalTZA t <= 9999 ->
  DateTs.parseDate (DateTs.formatDate LocalTZA t)
  = Some (JS.Day (JS.LocalTime LocalTZA t) * JS.msPerDay)
  /\ DateTs.isValidDate (DateTs.formatDate LocalTZA t) = true.
Proof.
  intros Hy.
  set (t' := JS.Day (JS.LocalTime LocalTZA t) * JS.msPerDay).
  assert (Hday : JS.Day (JS.LocalTime UTC_host t') = JS.Day (JS.LocalTime LocalTZA t)).
  { unfold JS.LocalTime at 1, UTC_host. rewrite Z.add_0_r. apply midnight_Day. }
  assert (H : DateTs.parseDate (DateTs.formatDate LocalTZA t) = Some t').
  { rewrite (formatDate_Day LocalTZA t UTC_host t') by done.
    apply parseDate_formatDate.
    - subst t'. unfold JS.msPerDay. zdiv.
    - rewrite Hday. subst t'. by rewrite midnight_Day.
    - unfold JS.getUTCFullYear, JS.YearFromTime. subst t'. rewrite midnight_Day.
      exact Hy. }
  split; [exact H |]. unfold DateTs.isValidDate. by rewrite H.
Qed.

(** X4: on every host, for a Date whose local year has four digits,
    [formatDate] writes a string that [isValidDate] accepts and that
    [parseDate] reads as midnight UTC of the Date's local calendar day. *)
Theorem parseDate_inverts_formatDate (LocalTZA : Z -> Z) (t : JS.Date) :
  1000 <= JS.getFullYear LocalTZA t <= 9999 ->
  DateTs.parseDate (DateTs.formatDate LocalTZA t)
  = Some (JS.Day (JS.LocalTime LocalTZA t) * JS.msPerDay)
  /\ DateTs.isValidDate (DateTs.formatDate LocalTZA t) = true.
Proof. apply parseDate_formatDate_local. Qed.

Lemma parseDate_inverts_formatDate_witness :
  DateTs.isValidDate (DateTs.formatDate UTC_minus_5 christmas2026) = true.
Proof.
  apply (parseDate_inverts_formatDate UTC_minus_5 christmas2026).
  vm_compute. split; discriminate.
Defined.

(** X5: when the local year has four digits, [getTodayString] is a string
    that [isValidDate] accepts: the decimal of [getCurrentYear], a hyphen,
    and five more characters. *)
Theorem getTodayString_valid (LocalTZA : Z -> Z) (now : JS.Date) :
  1000 <= DateTs.getCurrentYear LocalTZA now <= 9999 ->
  DateTs.isValidDate (DateTs.getTodayString LocalTZA now) = true
  /\ exists monthDay,
       DateTs.getTodayString LocalTZA now
       = (JS.Number_toString (DateTs.getCurrentYear LocalTZA now)
            ++ "-" ++ monthDay)%string
       /\ String.length monthDay = 5%nat.
Proof.
  intros Hy. unfold DateTs.getTodayString, DateTs.getCurrentYear in *.
  split; [by apply parseDate_formatDate_local |].
  unfold DateTs.formatDate, JS.getMonth, JS.getDate.
  destruct (fields_valid (JS.LocalTime LocalTZA now)) as [[Hm Hd] _].
  set (m := JS.MonthFromTime (JS.LocalTime LocalTZA now) + 1) in *.
  set (d := JS.DateFromTime (JS.LocalTime LocalTZA now)) in *.
  assert (Hd99 : 0 <= d <= 99).
  { unfold Gregorian.daysInMonth in Hd.
    assert (Hcases : m = 1 \/ m = 2 \/ m = 3 \/ m = 4 \/ m = 5 \/ m = 6 \/ m = 7
                     \/ m = 8 \/ m = 9 \/ m = 10 \/ m = 11 \/ m = 12) by lia.
    clearbody m. revert Hd.
    destruct (Gregorian.leapYear _);
      repeat (destruct Hcases as [-> | Hcases]; [lia |]); subst m; lia. }
  destruct (two_digits m ltac:(lia)) as (Hm1 & Hm2 & Hmeq).
  destruct (two_digits d Hd99) as (Hd1 & Hd2 & Hdeq).
  eexists. split; [reflexivity |].
  rewrite Hmeq, Hdeq, !padStart_2 by lia. reflexivity.
Qed.

Lemma getTodayString_valid_witness :
  DateTs.isValidDate (DateTs.getTodayString UTC_minus_5 christmas2026) = true.
Proof.
  apply (getTodayString_valid UTC_minus_5 christmas2026).
  vm_compute. split; discriminate.
Defined.

(** X6: on a host whose local time is behind UTC, by a day at most,
    [formatDate] maps the Date of an accepted string after the year 1000 to
    the string of the day before, never to the string itself. *)
Theorem formatDate_behind_UTC (LocalTZA : Z -> Z) (s : string) (t : JS.Date) :
  DateTs.parseDate s = Some t ->
  - JS.msPerDay <= LocalTZA t < 0 ->
  1000 < JS.getUTCFullYear t ->
  DateTs.formatDate LocalTZA t = DateTs.formatDate UTC_host (t - JS.msPerDay)
  /\ DateTs.formatDate LocalTZA t <> s.
Proof. apply formatDate_parseDate_west. Qed.

Lemma formatDate_behind_UTC_witness :
  DateTs.formatDate UTC_minus_5 christmas2026 <> "2026-12-25"%string.
Proof.
  apply (formatDate_behind_UTC UTC_minus_5 "2026-12-25" christmas2026).
  - reflexivity.
  - unfold UTC_minus_5, JS.msPerDay. lia.
  - vm_compute. reflexivity.
Defined.

(** X7: [formatDate] does not pad the year: for an accepted string with a
    year below 1000 its result differs from the string on every host. *)
Theorem formatDate_never_pads_year (LocalTZA : Z -> Z) (s : string) (t : JS.Date) :
  DateTs.parseDate s = Some t ->
  JS.getUTCFullYear t < 1000 ->
  DateTs.formatDate LocalTZA t <> s.
Proof. apply formatDate_parseDate_year_below_1000. Qed.

Lemma formatDate_never_pads_year_witness :
  DateTs.formatDate UTC_host (-59011459200000) <> "0100-01-01"%string.
Proof.
  apply (formatDate_never_pads_year UTC_host "0100-01-01" (-59011459200000)).
  - reflexivity.
  - vm_compute. reflexivity.
Defined.

Close Scope Z_scope.

(* ===================================================================== *)
(** * Further properties of the cache and the resolver                    *)
(* ===================================================================== *)

(** X8: the cache key [`${year}-${country}`] is collision free: equal keys
    come from the same year and the same country string, negative years and
    countries with hyphens or digits included. *)
Theorem cacheKey_collision_free (year1 year2 : Z) (country1 country2 : string) :
  cacheKey year1 (JS.Str country1) = cacheKey year2 (JS.Str country2) ->
  year1 = year2 /\ country1 = country2.
Proof. intros H. by apply cacheKey_inj in H. Qed.

Lemma cacheKey_collision_free_witness :
  (-44 = -44)%Z /\ ("1-italy" = "1-italy")%string.
Proof.
  apply (cacheKey_collision_free (-44) (-44) "1-italy" "1-italy"). reflexivity.
Defined.

(** X9: for supported dioceses, two resolutions use the same cache key
    exactly when they have the same year and the same diocese. *)
Theorem supported_dioceses_have_own_keys
    (year1 year2 : Z) (diocese1 diocese2 : string) :
  isValidDiocese diocese1 = true ->
  isValidDiocese diocese2 = true ->
  (cacheKey year1 (dioceseToCountry diocese1)
   = cacheKey year2 (dioceseToCountry diocese2)
   <-> year1 = year2 /\ diocese1 = diocese2).
Proof.
  intros H1 H2. split.
  - intros Heq. apply cacheKey_supported_inj in Heq as [-> Hc]; [| done].
    split; [reflexivity |]. symmetry in Hc. by apply dioceseToCountry_inj.
  - by intros [-> ->].
Qed.

Lemma supported_dioceses_have_own_keys_witness :
  cacheKey 2026 (dioceseToCountry "united-states")
  = cacheKey 2026 (dioceseToCountry "england")
  <-> 2026%Z = 2026%Z /\ "united-states"%string = "england"%string.
Proof.
  apply (supported_dioceses_have_own_keys 2026 2026 "united-states" "england");
    reflexivity.
Defined.

(** X10: a call of [getLiturgicalDay] never removes or replaces an entry of
    the cache, and leaves every key other than its own as it was. *)
Theorem getLiturgicalDay_keeps_entries
    (LocalTZA : Z -> Z)
    (calendarFor : Z -> JS.Value -> Completion (list RomcalDay.t))
    (toLowerCase : string -> string)
    (date : JS.Date) (diocese : option string) (st : State) :
  let st' := snd (getLiturgicalDay LocalTZA calendarFor toLowerCase date diocese st) in
  (forall key dateMap,
      calendarCache st !! key = Some dateMap ->
      calendarCache st' !! key = Some dateMap)
  /\ (forall key,
        key <> cacheKey (JS.getFullYear LocalTZA date)
                 (dioceseToCountry (default DEFAULT_DIOCESE diocese)) ->
        calendarCache st' !! key = calendarCache st !! key).
Proof.
  intros st'. subst st'.
  destruct (getLiturgicalDay_state LocalTZA calendarFor toLowerCase date diocese st)
    as [[-> _] | (_ & Hmiss & _ & [(cal & _ & -> & _) | (e & _ & -> & _)])];
    try done.
  split.
  - intros key dateMap Hk. rewrite lookup_insert_ne; [done |].
    intros <-. congruence.
  - intros key Hk. by rewrite lookup_insert_ne.
Qed.

(** X11: a call of [getLiturgicalDay] invokes the engine once, with its
    year and country, when the diocese is supported and the cache has no
    entry for the key, and not at all otherwise. *)
Theorem getLiturgicalDay_engine_calls
    (LocalTZA : Z -> Z)
    (calendarFor : Z -> JS.Value -> Completion (list RomcalDay.t))
    (toLowerCase : string -> string)
    (date : JS.Date) (diocese : option string) (st : State) :
  let year := JS.getFullYear LocalTZA date in
  let country := dioceseToCountry (default DEFAULT_DIOCESE diocese) in
  engineCalls (snd (getLiturgicalDay LocalTZA calendarFor toLowerCase date diocese st))
  = if isValidDiocese (default DEFAULT_DIOCESE diocese)
       && bool_decide (calendarCache st !! cacheKey year country = None)
    then engineCalls st ++ [(year, country)]
    else engineCalls st.
Proof.
  intros year country.
  destruct (getLiturgicalDay_state LocalTZA calendarFor toLowerCase date diocese st)
    as [[-> [Hv | Hc]] | (Hv & Hmiss & Hcalls & _)].
  - by rewrite Hv.
  - rewrite bool_decide_eq_false_2, andb_false_r; [done |].
    fold year country in Hc. destruct Hc as [dm Hc]. congruence.
  - fold year country in Hmiss. rewrite Hv, bool_decide_eq_true_2 by done.
    exact Hcalls.
Qed.

(** X12: [clearCalendarCache] empties the cache and leaves the rest of the
    state alone; the next [getLiturgicalDay] for a supported diocese invokes
    the engine exactly once, whatever was cached before. *)
Theorem clear_then_resolve_calls_engine_once
    (LocalTZA : Z -> Z)
    (calendarFor : Z -> JS.Value -> Completion (list RomcalDay.t))
    (toLowerCase : string -> string)
    (date : JS.Date) (diocese : option string) (st : State) :
  let cleared := snd (clearCalendarCache st) in
  calendarCache cleared = ∅
  /\ engineCalls cleared = engineCalls st
  /\ console cleared = console st
  /\ (isValidDiocese (default DEFAULT_DIOCESE diocese) = true ->
      engineCalls (snd (getLiturgicalDay LocalTZA calendarFor toLowerCase date diocese cleared))
      = engineCalls st
          ++ [(JS.getFullYear LocalTZA date,
               dioceseToCountry (default DEFAULT_DIOCESE diocese))]).
Proof.
  intros cleared. repeat split.
  intros Hv.
  destruct (getLiturgicalDay_state LocalTZA calendarFor toLowerCase date diocese cleared)
    as [[_ [Hv' | [dm Hc]]] | (_ & _ & Hcalls & _)].
  - congruence.
  - subst cleared. cbn in Hc. by rewrite lookup_empty in Hc.
  - exact Hcalls.
Qed.

Lemma clear_then_resolve_calls_engine_once_witness :
  engineCalls
    (snd (getLiturgicalDay UTC_host sampleEngine sampleToLowerCase christmas2026 (Some "italy")
            (snd (clearCalendarCache
                    (snd (getLiturgicalDay UTC_host sampleEngine sampleToLowerCase christmas2026
                            (Some "italy") initial))))))
  = [(2026%Z, JS.Str "italy"); (2026%Z, JS.Str "italy")].
Proof.
  apply (clear_then_resolve_calls_engine_once UTC_host sampleEngine sampleToLowerCase christmas2026
           (Some "italy")
           (snd (getLiturgicalDay UTC_host sampleEngine sampleToLowerCase christmas2026
                   (Some "italy") initial))).
  reflexivity.
Defined.

(** X13: in every reachable state, the [date] field of a response that
    [getLiturgicalDay] returns is the formatted date that was asked for. *)
Theorem response_date_is_requested_date
    (LocalTZA : Z -> Z)
    (calendarFor : Z -> JS.Value -> Completion (list RomcalDay.t))
    (toLowerCase : string -> string)
    (date : JS.Date) (diocese : option string) (st : State)
    (response : LiturgicalDayResponse.t) :
  reachable LocalTZA calendarFor toLowerCase st ->
  fst (getLiturgicalDay LocalTZA calendarFor toLowerCase date diocese st)
  = Normal (Some response) ->
  LiturgicalDayResponse.date response = DateTs.formatDate LocalTZA date.
Proof. apply getLiturgicalDay_date. Qed.

Lemma response_date_is_requested_date_witness :
  LiturgicalDayResponse.date (toLiturgicalDayResponse sampleToLowerCase christmas)
  = DateTs.formatDate UTC_host christmas2026.
Proof.
  apply (response_date_is_requested_date UTC_host sampleEngine sampleToLowerCase christmas2026
           (Some "france") initial (toLiturgicalDayResponse sampleToLowerCase christmas)).
  - apply rtc_refl.
  - reflexivity.
Defined.

(** X14: the cache is transparent: in every reachable state and for a
    supported diocese, [getLiturgicalDay] returns what the engine's list for
    the year and country determines, the normalized last record whose date
    string is the formatted date, and [null] when there is none or the
    engine throws. *)
Theorem cache_is_transparent
    (LocalTZA : Z -> Z)
    (calendarFor : Z -> JS.Value -> Completion (list RomcalDay.t))
    (toLowerCase : string -> string)
    (date : JS.Date) (diocese : option string) (st : State) :
  reachable LocalTZA calendarFor toLowerCase st ->
  isValidDiocese (default DEFAULT_DIOCESE diocese) = true ->
  fst (getLiturgicalDay LocalTZA calendarFor toLowerCase date diocese st) =
  Normal
    match calendarFor (JS.getFullYear LocalTZA date)
            (dioceseToCountry (default DEFAULT_DIOCESE diocese)) with
    | Normal calendar =>
        toLiturgicalDayResponse toLowerCase
          <$> last (filter
                      (fun day => dateStrOf day = DateTs.formatDate LocalTZA date)
                      calendar)
    | Throw _ => None
    end.
Proof. apply getLiturgicalDay_served. Qed.

Lemma cache_is_transparent_witness :
  fst (getLiturgicalDay UTC_host sampleEngine sampleToLowerCase christmas2026 None
         (snd (getLiturgicalDay UTC_host sampleEngine sampleToLowerCase christmas2026 None initial)))
  = Normal (Some (toLiturgicalDayResponse sampleToLowerCase christmas)).
Proof.
  rewrite (cache_is_transparent UTC_host sampleEngine sampleToLowerCase christmas2026 None
             (snd (getLiturgicalDay UTC_host sampleEngine sampleToLowerCase christmas2026 None initial))).
  - reflexivity.
  - eapply rtc_l; [apply step_getLiturgicalDay | apply rtc_refl].
  - reflexivity.
Defined.

(* ===================================================================== *)
(** * Route handlers                                                      *)
(* ===================================================================== *)

Section RouteFacts.
Variable LocalTZA : Z -> Z.
Variable calendarFor : Z -> JS.Value -> Completion (list RomcalDay.t).
Variable toLowerCase : string -> string.

Lemma getLiturgicalDay_returns date diocese st :
  exists outcome,
    fst (getLiturgicalDay LocalTZA calendarFor toLowerCase date diocese st) = Normal outcome.
Proof.
  destruct (isValidDiocese (default DEFAULT_DIOCESE diocese)) eqn:Hv.
  - rewrite getLiturgicalDay_valid by done.
    destruct (getCalendar calendarFor _ _ st) as [[dateMap | e] st']; eauto.
  - rewrite getLiturgicalDay_invalid by done. eauto.
Qed.

Lemma resolve_and_answer notFound date diocese st :
  try_catch
    (liturgicalDay <- getLiturgicalDay LocalTZA calendarFor toLowerCase date diocese ;;
     match liturgicalDay with
     | None =>
         ret (c_json (ErrorJson (ErrorResponse.mk "NOT_FOUND" notFound 404)) 404)
     | Some day => ret (c_json (DayJson day) 200)
     end)
    (fun error =>
       ret (c_json
              (ErrorJson
                 (ErrorResponse.mk "INTERNAL_ERROR"
                    "An error occurred while retrieving liturgical data" 500))
              500)) st
  = (Normal
       (resolved notFound
          (match fst (getLiturgicalDay LocalTZA calendarFor toLowerCase date diocese st) with
           | Normal outcome => outcome
           | Throw _ => None
           end)),
     snd (getLiturgicalDay LocalTZA calendarFor toLowerCase date diocese st)).
Proof.
  destruct (getLiturgicalDay_returns date diocese st) as [outcome Ho].
  unfold try_catch, bind.
  destruct (getLiturgicalDay LocalTZA calendarFor toLowerCase date diocese st) as [o st'].
  cbn [fst snd] in *. subst o. by destruct outcome.
Qed.

Lemma rejectsDiocese_false dioceseParam :
  rejectsDiocese dioceseParam = false ->
  isValidDiocese (JS.or_default dioceseParam DEFAULT_DIOCESE) = true.
Proof.
  destruct dioceseParam as [[| c s] |]; cbn [rejectsDiocese JS.or_default];
    try reflexivity.
  by intros ?%negb_false_iff.
Qed.

(** [dateRoute], case by case. *)
Lemma dateRoute_cases dateParam dioceseParam st :
  (DateTs.isValidDate dateParam = false
   /\ dateRoute LocalTZA calendarFor toLowerCase dateParam dioceseParam st
      = (Normal
           (c_json
              (ErrorJson
                 (ErrorResponse.mk "INVALID_DATE"
                    ("Invalid date format '" ++ dateParam
                       ++ "'. Expected YYYY-MM-DD format.")%string
                    400))
              400), st))
  \/ (DateTs.isValidDate dateParam = true
      /\ rejectsDiocese dioceseParam = true
      /\ dateRoute LocalTZA calendarFor toLowerCase dateParam dioceseParam st
         = (Normal (invalidDioceseResponse (default "" dioceseParam)), st))
  \/ (exists date,
         DateTs.parseDate dateParam = Some date
         /\ rejectsDiocese dioceseParam = false
         /\ dateRoute LocalTZA calendarFor toLowerCase dateParam dioceseParam st
            = (Normal
                 (resolved
                    ("No liturgical data found for date '" ++ dateParam ++ "'")%string
                    (match fst (getLiturgicalDay LocalTZA calendarFor toLowerCase date
                                  (Some (JS.or_default dioceseParam DEFAULT_DIOCESE)) st)
                     with
                     | Normal outcome => outcome
                     | Throw _ => None
                     end)),
               snd (getLiturgicalDay LocalTZA calendarFor toLowerCase date
                      (Some (JS.or_default dioceseParam DEFAULT_DIOCESE)) st))).
Proof.
  unfold dateRoute, DateTs.isValidDate.
  destruct (DateTs.parseDate dateParam) as [date |] eqn:Hp; cbn [negb].
  - right. destruct (rejectsDiocese dioceseParam) eqn:Hr.
    + left. by repeat split.
    + right. exists date. repeat split. apply resolve_and_answer.
  - left. by split.
Qed.

Lemma todayRoute_cases now dioceseParam st :
  (rejectsDiocese dioceseParam = true
   /\ todayRoute LocalTZA calendarFor toLowerCase now dioceseParam st
      = (Normal (invalidDioceseResponse (default "" dioceseParam)), st))
  \/ (rejectsDiocese dioceseParam = false
      /\ todayRoute LocalTZA calendarFor toLowerCase now dioceseParam st
         = (Normal
              (resolved "No liturgical data found for today"
                 (match fst (getLiturgicalDay LocalTZA calendarFor toLowerCase now
                               (Some (JS.or_default dioceseParam DEFAULT_DIOCESE)) st)
                  with
                  | Normal outcome => outcome
                  | Throw _ => None
                  end)),
            snd (getLiturgicalDay LocalTZA calendarFor toLowerCase now
                   (Some (JS.or_default dioceseParam DEFAULT_DIOCESE)) st))).
Proof.
  unfold todayRoute, getToday.
  destruct (rejectsDiocese dioceseParam) eqn:Hr.
  - left. by split.
  - right. split; [reflexivity |]. apply resolve_and_answer.
Qed.
End RouteFacts.

Lemma rejectsDiocese_true dioceseParam :
  rejectsDiocese dioceseParam = true <->
  exists p, dioceseParam = Some p /\ p <> EmptyString /\ p ∉ SUPPORTED_DIOCESES.
Proof.
  split.
  - destruct dioceseParam as [[| c s] |]; cbn [rejectsDiocese]; try discriminate.
    intros H%negb_true_iff. exists (String c s). repeat split; [done |].
    intros Hin%isValidDiocese_elem. congruence.
  - intros (p & -> & Hne & Hp). destruct p as [| c s]; [done |].
    cbn [rejectsDiocese]. apply negb_true_iff. by apply isValidDiocese_false.
Qed.

Lemma resolved_errorCode notFound outcome code :
  errorCode (resolved notFound outcome) = Some code -> code = "NOT_FOUND"%string.
Proof. destruct outcome; cbn; congruence. Qed.

Lemma resolved_wellFormed notFound outcome :
  wellFormed (resolved notFound outcome)
  /\ errorCode (resolved notFound outcome) <> Some "INTERNAL_ERROR"%string.
Proof.
  destruct outcome; cbn; [done |]. split; [by split; [| right] | done].
Qed.

(** X16: the handler of [GET /date/:date] always answers: with a 200 and a
    day, or with a 400 or a 404 whose body repeats the status; its
    [INTERNAL_ERROR] branch is never taken. *)
Theorem dateRoute_never_fails
    (LocalTZA : Z -> Z)
    (calendarFor : Z -> JS.Value -> Completion (list RomcalDay.t))
    (toLowerCase : string -> string)
    (dateParam : string) (dioceseParam : option string) (st : State) :
  exists response,
    fst (dateRoute LocalTZA calendarFor toLowerCase dateParam dioceseParam st) = Normal response
    /\ wellFormed response
    /\ errorCode response <> Some "INTERNAL_ERROR"%string.
Proof.
  destruct (dateRoute_cases LocalTZA calendarFor toLowerCase dateParam dioceseParam st)
    as [[_ ->] | [(_ & _ & ->) | (date & _ & _ & ->)]];
    eexists; (split; [reflexivity |]).
  - split; [by split; [| left] | done].
  - split; [by split; [| left] | done].
  - apply resolved_wellFormed.
Qed.

(** X17: [GET /date/:date] answers [INVALID_DATE] exactly when
    [isValidDate] rejects the date, whatever the diocese parameter; the
    status is then 400 and the state is untouched. *)
Theorem dateRoute_invalid_date
    (LocalTZA : Z -> Z)
    (calendarFor : Z -> JS.Value -> Completion (list RomcalDay.t))
    (toLowerCase : string -> string)
    (dateParam : string) (dioceseParam : option string) (st : State)
    (response : HttpResponse) :
  fst (dateRoute LocalTZA calendarFor toLowerCase dateParam dioceseParam st) = Normal response ->
  (errorCode response = Some "INVALID_DATE"%string
   <-> DateTs.isValidDate dateParam = false)
  /\ (DateTs.isValidDate dateParam = false ->
      httpStatus response = 400%Z
      /\ snd (dateRoute LocalTZA calendarFor toLowerCase dateParam dioceseParam st) = st).
Proof.
  destruct (dateRoute_cases LocalTZA calendarFor toLowerCase dateParam dioceseParam st)
    as [[Hv ->] | [(Hv & _ & ->) | (date & Hp & _ & ->)]];
    cbn [fst snd]; intros [= <-].
  - by repeat split.
  - split; [split; [discriminate | congruence] | congruence].
  - assert (Hv : DateTs.isValidDate dateParam = true)
      by (unfold DateTs.isValidDate; by rewrite Hp).
    split; [split; [| congruence] | congruence].
    by intros ?%resolved_errorCode.
Qed.

Lemma dateRoute_invalid_date_witness :
  httpStatus
    (c_json
       (ErrorJson
          (ErrorResponse.mk "INVALID_DATE"
             "Invalid date format '2026-02-30'. Expected YYYY-MM-DD format." 400))
       400) = 400%Z
  /\ snd (dateRoute UTC_host sampleEngine sampleToLowerCase "2026-02-30" (Some "mexico"%string) initial)
     = initial.
Proof.
  apply (dateRoute_invalid_date UTC_host sampleEngine sampleToLowerCase "2026-02-30"
           (Some "mexico"%string) initial); reflexivity.
Defined.

(** X18: [GET /date/:date] answers [INVALID_DIOCESE] exactly when the date
    is valid and the diocese parameter is a non-empty string outside the
    supported list; the body then names the parameter and the six
    supported codes in their order, and the state is untouched. *)
Theorem dateRoute_invalid_diocese
    (LocalTZA : Z -> Z)
    (calendarFor : Z -> JS.Value -> Completion (list RomcalDay.t))
    (toLowerCase : string -> string)
    (dateParam : string) (dioceseParam : option string) (st : State)
    (response : HttpResponse) :
  fst (dateRoute LocalTZA calendarFor toLowerCase dateParam dioceseParam st) = Normal response ->
  (errorCode response = Some "INVALID_DIOCESE"%string
   <-> DateTs.isValidDate dateParam = true
       /\ exists p, dioceseParam = Some p /\ p <> EmptyString
                    /\ p ∉ SUPPORTED_DIOCESES)
  /\ (errorCode response = Some "INVALID_DIOCESE"%string ->
      snd (dateRoute LocalTZA calendarFor toLowerCase dateParam dioceseParam st) = st
      /\ exists p,
           dioceseParam = Some p
           /\ response
              = c_json
                  (ErrorJson
                     (ErrorResponse.mk "INVALID_DIOCESE"
                        ("Invalid diocese '" ++ p
                           ++ "'. Supported dioceses: united-states, england, italy, france, spain, germany")%string
                        400))
                  400).
Proof.
  destruct (dateRoute_cases LocalTZA calendarFor toLowerCase dateParam dioceseParam st)
    as [[Hv ->] | [(Hv & Hr & ->) | (date & Hp & Hr & ->)]];
    cbn [fst snd]; intros [= <-].
  - split; [split; [discriminate | intros [? _]; congruence] | discriminate].
  - pose proof (proj1 (rejectsDiocese_true _) Hr) as (p & -> & Hne & Hsup).
    split; [split; [| done] |].
    + intros _. split; [done |]. by exists p.
    + intros _. split; [done |]. by exists p.
  - split; [split |].
    + by intros ?%resolved_errorCode.
    + intros [_ Hrej%rejectsDiocese_true]. congruence.
    + by intros ?%resolved_errorCode.
Qed.

Lemma dateRoute_invalid_diocese_witness :
  snd (dateRoute UTC_host sampleEngine sampleToLowerCase "2026-12-25" (Some "mexico"%string) initial)
  = initial.
Proof.
  apply (dateRoute_invalid_diocese UTC_host sampleEngine sampleToLowerCase "2026-12-25"
           (Some "mexico"%string) initial
           (invalidDioceseResponse "mexico")); reflexivity.
Defined.

(** X19: in both handlers a missing or empty diocese parameter is the
    default diocese: the result and the state are those of
    [diocese=united-states]. *)
Theorem routes_default_diocese
    (LocalTZA : Z -> Z)
    (calendarFor : Z -> JS.Value -> Completion (list RomcalDay.t))
    (toLowerCase : string -> string)
    (dateParam : string) (now : JS.Date) (st : State) :
  dateRoute LocalTZA calendarFor toLowerCase dateParam None st
  = dateRoute LocalTZA calendarFor toLowerCase dateParam (Some "united-states"%string) st
  /\ dateRoute LocalTZA calendarFor toLowerCase dateParam (Some EmptyString) st
     = dateRoute LocalTZA calendarFor toLowerCase dateParam (Some "united-states"%string) st
  /\ todayRoute LocalTZA calendarFor toLowerCase now None st
     = todayRoute LocalTZA calendarFor toLowerCase now (Some "united-states"%string) st
  /\ todayRoute LocalTZA calendarFor toLowerCase now (Some EmptyString) st
     = todayRoute LocalTZA calendarFor toLowerCase now (Some "united-states"%string) st.
Proof. repeat split; reflexivity. Qed.

Section RouteOutcomes.
Variable LocalTZA : Z -> Z.
Variable calendarFor : Z -> JS.Value -> Completion (list RomcalDay.t).
Variable toLowerCase : string -> string.

(** The day a handler answers with is the outcome of the resolver. *)
Lemma resolved_day notFound date diocese st day :
  jsonBody
    (resolved notFound
       (match fst (getLiturgicalDay LocalTZA calendarFor toLowerCase date diocese st) with
        | Normal outcome => outcome
        | Throw _ => None
        end)) = DayJson day ->
  fst (getLiturgicalDay LocalTZA calendarFor toLowerCase date diocese st) = Normal (Some day).
Proof.
  destruct (getLiturgicalDay_returns LocalTZA calendarFor toLowerCase date diocese st)
    as [outcome ->].
  destruct outcome as [d |]; cbn; [| discriminate]. by intros [= ->].
Qed.

Lemma dateRoute_day dateParam dioceseParam st date response day :
  DateTs.parseDate dateParam = Some date ->
  fst (dateRoute LocalTZA calendarFor toLowerCase dateParam dioceseParam st) = Normal response ->
  jsonBody response = DayJson day ->
  fst (getLiturgicalDay LocalTZA calendarFor toLowerCase date
         (Some (JS.or_default dioceseParam DEFAULT_DIOCESE)) st)
  = Normal (Some day).
Proof.
  intros Hp Hres Hbody.
  destruct (dateRoute_cases LocalTZA calendarFor toLowerCase dateParam dioceseParam st)
    as [[Hv E] | [(Hv & Hr & E) | (date' & Hp' & Hr & E)]];
    rewrite E in Hres; cbn [fst] in Hres; injection Hres as <-;
    try discriminate Hbody.
  assert (date' = date) by congruence. subst date'.
  by eapply resolved_day.
Qed.
End RouteOutcomes.

(** X20: in every reachable state, the day that [GET /date/:date] answers
    with carries the formatted parsed date; on a host ahead of UTC by less
    than a day, and for a year of at least 1000, that is the date parameter
    itself. *)
Theorem dateRoute_ok_echoes_date
    (LocalTZA : Z -> Z)
    (calendarFor : Z -> JS.Value -> Completion (list RomcalDay.t))
    (toLowerCase : string -> string)
    (dateParam : string) (dioceseParam : option string) (st : State)
    (date : JS.Date) (response : HttpResponse) (day : LiturgicalDayResponse.t) :
  reachable LocalTZA calendarFor toLowerCase st ->
  DateTs.parseDate dateParam = Some date ->
  fst (dateRoute LocalTZA calendarFor toLowerCase dateParam dioceseParam st) = Normal response ->
  jsonBody response = DayJson day ->
  LiturgicalDayResponse.date day = DateTs.formatDate LocalTZA date
  /\ ((0 <= LocalTZA date < JS.msPerDay)%Z ->
      (1000 <= JS.getUTCFullYear date)%Z ->
      LiturgicalDayResponse.date day = dateParam).
Proof.
  intros Hreach Hp Hres Hbody.
  assert (Hdate : LiturgicalDayResponse.date day = DateTs.formatDate LocalTZA date).
  { eapply getLiturgicalDay_date; [exact Hreach |]. by eapply dateRoute_day. }
  split; [exact Hdate |].
  intros Htz Hy. rewrite Hdate. by apply formatDate_parseDate.
Qed.

Lemma dateRoute_ok_echoes_date_witness :
  LiturgicalDayResponse.date (toLiturgicalDayResponse sampleToLowerCase christmas)
  = DateTs.formatDate UTC_host christmas2026
  /\ ((0 <= UTC_host christmas2026 < JS.msPerDay)%Z ->
      (1000 <= JS.getUTCFullYear christmas2026)%Z ->
      LiturgicalDayResponse.date (toLiturgicalDayResponse sampleToLowerCase christmas)
      = "2026-12-25"%string).
Proof.
  apply (dateRoute_ok_echoes_date UTC_host sampleEngine sampleToLowerCase "2026-12-25" None initial
           christmas2026
           (c_json (DayJson (toLiturgicalDayResponse sampleToLowerCase christmas)) 200)).
  - apply rtc_refl.
  - reflexivity.
  - reflexivity.
  - reflexivity.
Defined.

(** X21: in every reachable state, for a valid date and an accepted
    diocese parameter, [GET /date/:date] answers 200 with the normalized
    last record of the engine's list whose date string is the formatted
    date, and 404 when there is none or the engine throws. *)
Theorem dateRoute_outcome
    (LocalTZA : Z -> Z)
    (calendarFor : Z -> JS.Value -> Completion (list RomcalDay.t))
    (toLowerCase : string -> string)
    (dateParam : string) (dioceseParam : option string) (st : State)
    (date : JS.Date) :
  reachable LocalTZA calendarFor toLowerCase st ->
  DateTs.parseDate dateParam = Some date ->
  rejectsDiocese dioceseParam = false ->
  fst (dateRoute LocalTZA calendarFor toLowerCase dateParam dioceseParam st) =
  Normal
    match calendarFor (JS.getFullYear LocalTZA date)
            (dioceseToCountry (JS.or_default dioceseParam DEFAULT_DIOCESE)) with
    | Normal calendar =>
        match last (filter
                      (fun day => dateStrOf day = DateTs.formatDate LocalTZA date)
                      calendar) with
        | Some day => c_json (DayJson (toLiturgicalDayResponse toLowerCase day)) 200
        | None =>
            c_json
              (ErrorJson
                 (ErrorResponse.mk "NOT_FOUND"
                    ("No liturgical data found for date '" ++ dateParam ++ "'")%string
                    404))
              404
        end
    | Throw _ =>
        c_json
          (ErrorJson
             (ErrorResponse.mk "NOT_FOUND"
                ("No liturgical data found for date '" ++ dateParam ++ "'")%string
                404))
          404
    end.
Proof.
  intros Hreach Hp Hr.
  destruct (dateRoute_cases LocalTZA calendarFor toLowerCase dateParam dioceseParam st)
    as [[Hv E] | [(Hv & Hr' & E) | (date' & Hp' & _ & E)]].
  - unfold DateTs.isValidDate in Hv. by rewrite Hp in Hv.
  - congruence.
  - assert (date' = date) by congruence. subst date'.
    rewrite E. cbn [fst].
    rewrite (getLiturgicalDay_served LocalTZA calendarFor toLowerCase date
               (Some (JS.or_default dioceseParam DEFAULT_DIOCESE)) st Hreach)
      by (by apply rejectsDiocese_false).
    cbn [default from_option id].
    destruct (calendarFor _ _) as [calendar | e]; [| reflexivity].
    by destruct (last _).
Qed.

Lemma dateRoute_outcome_witness :
  fst (dateRoute UTC_host sampleEngine sampleToLowerCase "2026-12-26" (Some "spain"%string) initial)
  = Normal (c_json (DayJson (toLiturgicalDayResponse sampleToLowerCase stephen)) 200).
Proof.
  rewrite (dateRoute_outcome UTC_host sampleEngine sampleToLowerCase "2026-12-26" (Some "spain"%string)
             initial 1798243200000%Z).
  - reflexivity.
  - apply rtc_refl.
  - reflexivity.
  - reflexivity.
Defined.

(** X22: on a host whose local time is behind UTC, by a day at most, a day
    that [GET /date/:date] answers with is the day before the one that was
    asked for (after the year 1000). *)
Theorem dateRoute_behind_UTC
    (LocalTZA : Z -> Z)
    (calendarFor : Z -> JS.Value -> Completion (list RomcalDay.t))
    (toLowerCase : string -> string)
    (dateParam : string) (dioceseParam : option string) (st : State)
    (date : JS.Date) (response : HttpResponse) (day : LiturgicalDayResponse.t) :
  reachable LocalTZA calendarFor toLowerCase st ->
  DateTs.parseDate dateParam = Some date ->
  (- JS.msPerDay <= LocalTZA date < 0)%Z ->
  (1000 < JS.getUTCFullYear date)%Z ->
  fst (dateRoute LocalTZA calendarFor toLowerCase dateParam dioceseParam st) = Normal response ->
  jsonBody response = DayJson day ->
  LiturgicalDayResponse.date day
  = DateTs.formatDate UTC_host (date - JS.msPerDay)%Z
  /\ LiturgicalDayResponse.date day <> dateParam.
Proof.
  intros Hreach Hp Htz Hy Hres Hbody.
  assert (Hdate : LiturgicalDayResponse.date day = DateTs.formatDate LocalTZA date).
  { eapply getLiturgicalDay_date; [exact Hreach |]. by eapply dateRoute_day. }
  rewrite Hdate. by apply formatDate_parseDate_west.
Qed.

Lemma dateRoute_behind_UTC_witness :
  LiturgicalDayResponse.date (toLiturgicalDayResponse sampleToLowerCase christmas)
  = DateTs.formatDate UTC_host (1798243200000 - JS.msPerDay)%Z
  /\ LiturgicalDayResponse.date (toLiturgicalDayResponse sampleToLowerCase christmas)
     <> "2026-12-26"%string.
Proof.
  apply (dateRoute_behind_UTC UTC_minus_5 sampleEngine sampleToLowerCase "2026-12-26" None initial
           1798243200000%Z
           (c_json (DayJson (toLiturgicalDayResponse sampleToLowerCase christmas)) 200)).
  - apply rtc_refl.
  - reflexivity.
  - unfold UTC_minus_5, JS.msPerDay. lia.
  - vm_compute. reflexivity.
  - reflexivity.
  - reflexivity.
Defined.

(** X23: the handler of [GET /today] always answers, with a 200 and a day
    or a 400 or 404 whose body repeats the status; it answers
    [INVALID_DIOCESE] exactly for a non-empty unsupported diocese
    parameter, without touching the state; in a reachable state a day it
    answers with carries [getTodayString] as its date. *)
Theorem todayRoute_never_fails
    (LocalTZA : Z -> Z)
    (calendarFor : Z -> JS.Value -> Completion (list RomcalDay.t))
    (toLowerCase : string -> string)
    (now : JS.Date) (dioceseParam : option string) (st : State) :
  exists response,
    fst (todayRoute LocalTZA calendarFor toLowerCase now dioceseParam st) = Normal response
    /\ wellFormed response
    /\ errorCode response <> Some "INTERNAL_ERROR"%string
    /\ (errorCode response = Some "INVALID_DIOCESE"%string
        <-> exists p, dioceseParam = Some p /\ p <> EmptyString
                      /\ p ∉ SUPPORTED_DIOCESES)
    /\ (errorCode response = Some "INVALID_DIOCESE"%string ->
        snd (todayRoute LocalTZA calendarFor toLowerCase now dioceseParam st) = st)
    /\ (reachable LocalTZA calendarFor toLowerCase st ->
        forall day,
          jsonBody response = DayJson day ->
          LiturgicalDayResponse.date day = DateTs.getTodayString LocalTZA now).
Proof.
  destruct (todayRoute_cases LocalTZA calendarFor toLowerCase now dioceseParam st)
    as [[Hr ->] | [Hr ->]]; eexists; (split; [reflexivity |]); cbn [snd].
  - split; [by split; [| left] |]. split; [done |].
    split; [split; [intros _; by apply rejectsDiocese_true | done] |].
    split; [done |]. intros _ day Hbody. discriminate Hbody.
  - destruct (resolved_wellFormed "No liturgical data found for today"
                (match fst (getLiturgicalDay LocalTZA calendarFor toLowerCase now
                              (Some (JS.or_default dioceseParam DEFAULT_DIOCESE)) st)
                 with Normal outcome => outcome | Throw _ => None end))
      as [Hwf Hne].
    split; [exact Hwf |]. split; [exact Hne |].
    split; [split |]; [| | split].
    + by intros ?%resolved_errorCode.
    + intros Hrej%rejectsDiocese_true. congruence.
    + by intros ?%resolved_errorCode.
    + intros Hreach day Hbody. apply resolved_day in Hbody.
      unfold DateTs.getTodayString. by eapply getLiturgicalDay_date.
Qed.
